(** * pytlv: a Tag-Length-Value text codec

    Shallow embedding of [tlv.py] and verification of its framing,
    dispatch and round-trip properties.

    Python values are modelled by the inductive type [pyvalue]; a Python
    [str] is a list of code points, so that [len] and slicing count
    characters exactly as Python does.  Exceptions are modelled by the
    [result] monad.  The interpreter's built-in conversions that the
    module calls but does not define ([str]/[float] on floats,
    [isoformat]/[fromisoformat], the Unicode tables behind [int]) are
    the fields of the class [Builtins], and what their documentation
    promises is the class [BuiltinContracts].

    The interpreter refuses to convert between an integer and a
    decimal text of more than [int_max_str_digits] digits; the module
    leaves that limit at its default, and so does the model.  An aware
    datetime carries its time zone: a fixed offset, or a zone with
    rules of its own, whose offset may depend on the fold.

    Outside the model: the recursion depth of the interpreter, and the
    identity of objects other than time zones. *)

From Stdlib Require Import String Ascii ZArith NArith List Bool Lia.
From Stdlib Require Import Sorting.Permutation.
From Stdlib Require Import Floats.SpecFloat.
Import ListNotations.
Open Scope Z_scope.

(* ================================================================= *)
(** ** Strings, slices and exceptions *)

Definition char := N.
Definition str := list char.

(** An ASCII string literal, as a list of code points. *)
Definition lit (s : string) : str := map N_of_ascii (list_ascii_of_string s).

Definition len {A : Type} (l : list A) : Z := Z.of_nat (length l).

(** The exceptions that the module lets through.  [OutOfFuel] is none
    of Python's: it marks a decoding that the fuel did not cover, and
    [decode] never returns it (see [decode_fuel_enough]). *)
Inductive exn : Type :=
  | IndexError
  | KeyError
  | ValueError
  | TypeError
  | OutOfFuel.

Inductive result (A : Type) : Type :=
  | Ok (a : A)
  | Raise (e : exn).

Arguments Ok {A} a.
Arguments Raise {A} e.

Definition bind {A B : Type} (c : result A) (k : A -> result B) : result B :=
  match c with
  | Ok a => k a
  | Raise e => Raise e
  end.

Notation "x <- c ;; k" := (bind c (fun x => k))
  (at level 61, c at next level, right associativity).
Notation "' pat <- c ;; k" := (bind c (fun x => match x with pat => k end))
  (at level 61, pat pattern, c at next level, right associativity).

(** [PySlice_AdjustIndices] for a step of one: a negative index counts
    from the end, and every index is clamped to [0 .. n]. *)
Definition slice_index (n i : Z) : Z :=
  if i <? 0 then Z.max 0 (i + n) else Z.min i n.

(** [s[start:stop]] *)
Definition py_slice (s : str) (start stop : Z) : str :=
  let a := slice_index (len s) start in
  let b := slice_index (len s) stop in
  firstn (Z.to_nat (b - a)) (skipn (Z.to_nat a) s).

(** [s[start:]] *)
Definition py_slice_from (s : str) (start : Z) : str :=
  skipn (Z.to_nat (slice_index (len s) start)) s.

(** [s.split(d, maxsplit=1)[0]]: the characters before the first [d],
    or all of [s] when [d] does not occur. *)
Fixpoint split_head (d : char) (s : str) : str :=
  match s with
  | [] => []
  | c :: s' => if (c =? d)%N then [] else c :: split_head d s'
  end.

(* ================================================================= *)
(** ** Floats and datetimes *)

(** A Python float is an IEEE-754 binary64 value. *)
Definition pyfloat := spec_float.
Definition valid_float (f : pyfloat) : bool := valid_binary 53 1024 f.


(** The [tzinfo] of an aware datetime, as that datetime sees it.  A
    [timezone] is a fixed offset, in microseconds.  A zone with rules
    of its own (a [ZoneInfo]) is an object, named here by a number, and
    the two offsets that its [utcoffset] gives at the wall-clock
    reading of the datetime: one for [fold=0], one for [fold=1].  They
    differ in a repeated and in a skipped hour.  (A [tzinfo] whose
    [utcoffset] gives [None] makes a datetime that [isoformat] and [==]
    treat as a naive one.) *)
Inductive tzinfo : Type :=
  | FixedOffset (offset : Z)
  | RuleBased (zone : N) (offset0 offset1 : Z).

(** A [datetime]: its wall-clock reading in microseconds since
    0001-01-01T00:00:00, its [fold], and its [tzinfo] ([None] for a
    naive datetime). *)
Record datetime : Type := mk_datetime {
  dt_local : Z;
  dt_fold : bool;
  dt_tzinfo : option tzinfo
}.

Definition offset_at (fold : bool) (tz : tzinfo) : Z :=
  match tz with
  | FixedOffset o => o
  | RuleBased _ o0 o1 => if fold then o1 else o0
  end.

(** [d.utcoffset()] *)
Definition utcoffset (d : datetime) : option Z :=
  option_map (offset_at (dt_fold d)) (dt_tzinfo d).

(** Whether [d.replace(fold=not d.fold).utcoffset()] differs from
    [d.utcoffset()]. *)
Definition fold_dependent (d : datetime) : bool :=
  match dt_tzinfo d with
  | Some tz => negb (offset_at true tz =? offset_at false tz)
  | None => false
  end.

Definition max_local : Z := 315537897600000000.
Definition day_us : Z := 86400000000.

Definition valid_offset (o : Z) : bool := (- day_us <? o) && (o <? day_us).

(** The datetimes that the interpreter can build and ask for their
    offset: [utcoffset] raises on an offset of a day or more. *)
Definition valid_datetime (d : datetime) : bool :=
  (0 <=? dt_local d) && (dt_local d <? max_local) &&
  match dt_tzinfo d with
  | None => true
  | Some tz =>
      valid_offset (offset_at false tz) && valid_offset (offset_at true tz)
  end.

(** The datetime that [fromisoformat] reads from the text of [d]: the
    same wall-clock reading, [fold=0], and for an aware datetime the
    fixed offset that the text shows. *)
Definition decoded (d : datetime) : datetime :=
  {| dt_local := dt_local d;
     dt_fold := false;
     dt_tzinfo := option_map (fun o => FixedOffset o) (utcoffset d) |}.

(* ================================================================= *)
(** ** Values *)

(** The values of the ten registered types.  A set is listed in its
    iteration order, a dictionary as its items in insertion order
    (which is its iteration order). *)
Unset Elimination Schemes.
Inductive pyvalue : Type :=
  | VNone
  | VBool (b : bool)
  | VStr (s : str)
  | VDatetime (d : datetime)
  | VInt (z : Z)
  | VFloat (f : pyfloat)
  | VList (items : list pyvalue)
  | VTuple (items : list pyvalue)
  | VSet (items : list pyvalue)
  | VDict (items : list (pyvalue * pyvalue)).
Set Elimination Schemes.

(** *** Python's [==]

    Booleans, integers and floats compare by numeric value across the
    three types; a not-a-number is equal to nothing.  (Python's
    containers first compare their members by identity; [py_eq] is
    [==] between objects that share no member, which is the case of a
    decoded value and of the value it is compared with.) *)
Inductive number : Type :=
  | NumInt (z : Z)
  | NumFloat (f : pyfloat).

Definition as_number (v : pyvalue) : option number :=
  match v with
  | VBool b => Some (NumInt (Z.b2z b))
  | VInt z => Some (NumInt z)
  | VFloat f => Some (NumFloat f)
  | _ => None
  end.

Definition float_eq_int (f : pyfloat) (z : Z) : bool :=
  match f with
  | S754_zero _ => z =? 0
  | S754_finite s m e =>
      let sm := if s then Z.neg m else Z.pos m in
      if 0 <=? e then z =? sm * 2 ^ e else z * 2 ^ (- e) =? sm
  | _ => false
  end.

Definition number_eq (a b : number) : bool :=
  match a, b with
  | NumInt x, NumInt y => x =? y
  | NumFloat f, NumFloat g => SFeqb f g
  | NumFloat f, NumInt z => float_eq_int f z
  | NumInt z, NumFloat f => float_eq_int f z
  end.

Definition number_eq_value (a : number) (v : pyvalue) : bool :=
  match as_number v with
  | Some b => number_eq a b
  | None => false
  end.

(** [a.tzinfo is b.tzinfo], where it matters: two naive datetimes,
    or two datetimes of one zone.  (Two fixed offsets compare the same
    way whether they are one object or not.) *)
Definition same_tzinfo (a b : option tzinfo) : bool :=
  match a, b with
  | None, None => true
  | Some (RuleBased za _ _), Some (RuleBased zb _ _) => (za =? zb)%N
  | _, _ => false
  end.

(** [datetime.__eq__]: with one [tzinfo] the wall-clock readings are
    compared, whatever the folds are; a naive datetime is never equal
    to an aware one; otherwise the instants are compared, and a
    datetime whose offset depends on its fold is equal to nothing. *)
Definition datetime_eq (a b : datetime) : bool :=
  if same_tzinfo (dt_tzinfo a) (dt_tzinfo b) then dt_local a =? dt_local b
  else
    match utcoffset a, utcoffset b with
    | Some oa, Some ob =>
        (dt_local a - oa =? dt_local b - ob) &&
        negb (fold_dependent a) && negb (fold_dependent b)
    | _, _ => false
    end.

Fixpoint str_eq (s t : str) : bool :=
  match s, t with
  | [], [] => true
  | c :: s', d :: t' => (c =? d)%N && str_eq s' t'
  | _, _ => false
  end.

Section Forall2b.

Variable A : Type.
Variable f : A -> A -> bool.

(** Sequences are equal when they have the same length and equal
    members at every position. *)
Fixpoint forall2b (l m : list A) {struct l} : bool :=
  match l, m with
  | [], [] => true
  | x :: l', y :: m' => f x y && forall2b l' m'
  | _, _ => false
  end.

End Forall2b.

Arguments forall2b {A} f l m.

Fixpoint py_eq (a b : pyvalue) {struct a} : bool :=
  match a with
  | VNone => match b with VNone => true | _ => false end
  | VBool x => number_eq_value (NumInt (Z.b2z x)) b
  | VInt x => number_eq_value (NumInt x) b
  | VFloat x => number_eq_value (NumFloat x) b
  | VStr s => match b with VStr t => str_eq s t | _ => false end
  | VDatetime d => match b with VDatetime e => datetime_eq d e | _ => false end
  | VList l => match b with VList m => forall2b py_eq l m | _ => false end
  | VTuple l => match b with VTuple m => forall2b py_eq l m | _ => false end
  | VSet l =>
      match b with
      | VSet m =>
          (length l =? length m)%nat &&
          forallb (fun x => existsb (fun y => py_eq x y) m) l
      | _ => false
      end
  | VDict l =>
      match b with
      | VDict m =>
          (length l =? length m)%nat &&
          forallb (fun kv =>
                     match find (fun kv' => py_eq (fst kv) (fst kv')) m with
                     | Some kv' => py_eq (snd kv) (snd kv')
                     | None => false
                     end) l
      | _ => false
      end
  end.

(** Whether [hash(v)] succeeds. *)
Fixpoint hashable (v : pyvalue) : bool :=
  match v with
  | VList _ | VSet _ | VDict _ => false
  | VTuple l => forallb hashable l
  | _ => true
  end.

(** The members that [set(items)] keeps: they are added in order, a
    member equal to an earlier one is dropped, an unhashable member
    raises. *)
Definition set_add (x : pyvalue) (s : list pyvalue) : list pyvalue :=
  if existsb (fun y => py_eq y x) s then s else s ++ [x].

Fixpoint py_set_from (acc items : list pyvalue) : result (list pyvalue) :=
  match items with
  | [] => Ok acc
  | x :: rest =>
      if hashable x then py_set_from (set_add x acc) rest
      else Raise TypeError
  end.

(** [dict(pairs)] on a list of tuples (the pair handler returns
    nothing else): every tuple must have two members and a hashable
    first one; a key equal to an earlier one keeps the earlier key and
    takes the later value. *)
Fixpoint dict_set (k v : pyvalue) (d : list (pyvalue * pyvalue))
  : list (pyvalue * pyvalue) :=
  match d with
  | [] => [(k, v)]
  | (k', v') :: d' =>
      if py_eq k' k then (k', v) :: d' else (k', v') :: dict_set k v d'
  end.

Fixpoint py_dict_from (acc : list (pyvalue * pyvalue)) (pairs : list pyvalue)
  : result (list (pyvalue * pyvalue)) :=
  match pairs with
  | [] => Ok acc
  | VTuple [k; v] :: rest =>
      if hashable k then py_dict_from (dict_set k v acc) rest
      else Raise TypeError
  | VTuple _ :: _ => Raise ValueError
  | _ :: _ => Raise TypeError
  end.

Definition py_dict (pairs : list pyvalue) : result (list (pyvalue * pyvalue)) :=
  py_dict_from [] pairs.

(* ================================================================= *)
(** ** The built-ins of the interpreter *)

(** The conversions that the module calls and the interpreter
    defines. *)
Class Builtins : Type := {
  (** [Py_UNICODE_ISSPACE] and [Py_UNICODE_TODECIMAL] on the code
      points that are not ASCII, as [int] consults them *)
  uni_isspace : char -> bool;
  uni_todecimal : char -> option N;
  (** [str(x)] and [float(s)] for a float [x] *)
  float_str : pyfloat -> str;
  float_of_str : str -> option pyfloat;
  (** [d.isoformat()], which raises when [d.utcoffset()] does, and
      [datetime.fromisoformat(s)] *)
  isoformat : datetime -> result str;
  fromisoformat : str -> option datetime;
  (** the order in which a new set iterates, given its members in the
      order of their insertion *)
  set_iter : list pyvalue -> list pyvalue
}.

(** Their documented contracts: the text of a float reads back as the
    same float (the text of a not-a-number as a not-a-number); a
    datetime has a text, which shows its wall-clock reading and its
    offset and nothing else, and which reads back as a datetime of
    that reading and of that fixed offset; a set iterates over its
    members, each once, in an order of its own. *)
Class BuiltinContracts (builtins : Builtins) : Prop := {
  float_of_str_float_str :
    forall f, valid_float f = true -> float_of_str (float_str f) = Some f;
  fromisoformat_isoformat :
    forall d, valid_datetime d = true ->
      exists text,
        isoformat d = Ok text /\ fromisoformat text = Some (decoded d);
  isoformat_decoded :
    forall d, valid_datetime d = true -> isoformat (decoded d) = isoformat d;
  set_iter_members :
    forall l, Permutation (set_iter l) l
}.

(* ================================================================= *)
(** ** [str(n)] and [int(s)] for integers *)

Definition minus_sign : char := 45%N.
Definition plus_sign : char := 43%N.
Definition underscore : char := 95%N.
Definition space : char := 32%N.
Definition question_mark : char := 63%N.
Definition zero_digit : char := 48%N.

Fixpoint digits_fuel (fuel : nat) (n : Z) (acc : str) : str :=
  match fuel with
  | O => acc
  | S fuel' =>
      let acc' := (zero_digit + Z.to_N (n mod 10))%N :: acc in
      if n / 10 =? 0 then acc' else digits_fuel fuel' (n / 10) acc'
  end.

(** The decimal digits of [n >= 0]; a number has no more decimal than
    binary digits. *)
Definition str_of_nonneg (n : Z) : str :=
  digits_fuel (S (Z.to_nat (Z.log2 n))) n [].

(** The decimal text of [z]. *)
Definition str_of_Z (z : Z) : str :=
  if z <? 0 then minus_sign :: str_of_nonneg (- z) else str_of_nonneg z.

(** [sys.int_info.default_max_str_digits]: the module never calls
    [sys.set_int_max_str_digits].  (The interpreter checks the limit on
    texts of more than 640 digits, which this limit exceeds.) *)
Definition int_max_str_digits : Z := 4300.

(** The number of decimal digits of [z], without its sign. *)
Definition decimal_digits (z : Z) : Z := len (str_of_nonneg (Z.abs z)).

Definition too_many_digits (digits : Z) : bool := int_max_str_digits <? digits.

(** [str(z)], also what [f"{z}"] renders: a ValueError when [z] has
    more digits than the limit. *)
Definition int_str (z : Z) : result str :=
  if too_many_digits (decimal_digits z) then Raise ValueError
  else Ok (str_of_Z z).

(** The least number of more digits than the limit. *)
Definition length_limit : Z := 10 ^ int_max_str_digits.

(** [Py_ISSPACE]: tab, line feed, vertical tab, form feed, carriage
    return and space. *)
Definition is_ascii_space (c : char) : bool :=
  ((9 <=? c) && (c <=? 13) || (c =? 32))%N.

Definition digit_value (c : char) : option Z :=
  if ((48 <=? c) && (c <=? 57))%N then Some (Z.of_N (c - 48)) else None.

Fixpoint lstrip (s : str) : str :=
  match s with
  | c :: s' => if is_ascii_space c then lstrip s' else s
  | [] => []
  end.

(** The scan of [long_from_string_base]: digits with single
    underscores between them.  [prev] is the previous character.
    Returns the value read, the number of digits read (underscores do
    not count, zeros in front do) and the rest of the text. *)
Fixpoint scan_digits (prev : char) (acc digits : Z) (s : str)
  : option (Z * Z * str) :=
  match s with
  | c :: s' =>
      match digit_value c with
      | Some d => scan_digits c (10 * acc + d) (digits + 1) s'
      | None =>
          if (c =? underscore)%N then
            if (prev =? underscore)%N then None
            else scan_digits c acc digits s'
          else if (prev =? underscore)%N then None else Some (acc, digits, s)
      end
  | [] => if (prev =? underscore)%N then None else Some (acc, digits, [])
  end.

(** [int(s)] in base ten on a text in ASCII: surrounding white space,
    an optional sign, digits with single underscores between them, and
    no more digits than the limit. *)
Definition int_of_ascii (s : str) : result Z :=
  let s1 := lstrip s in
  let '(sign, s2) :=
    match s1 with
    | c :: r =>
        if (c =? plus_sign)%N then (1, r)
        else if (c =? minus_sign)%N then (-1, r)
        else (1, s1)
    | [] => (1, s1)
    end in
  match s2 with
  | c :: _ =>
      match digit_value c with
      | Some _ =>
          match scan_digits 0%N 0 0 s2 with
          | Some (z, digits, rest) =>
              if too_many_digits digits then Raise ValueError
              else
                match lstrip rest with
                | [] => Ok (sign * z)
                | _ :: _ => Raise ValueError
                end
          | None => Raise ValueError
          end
      | None => Raise ValueError
      end
  | [] => Raise ValueError
  end.

(* ================================================================= *)
(** ** Handlers and the registry *)

Inductive handler : Type :=
  | NoneHandler
  | BooleanHandler
  | StringHandler
  | DatetimeHandler
  | IntegerHandler
  | FloatHandler
  | ListHandler
  | TupleHandler
  | SetHandler
  | DictionaryHandler.

Definition ch (a : ascii) : char := N_of_ascii a.

Definition tag (h : handler) : char :=
  match h with
  | NoneHandler => ch "N"
  | BooleanHandler => ch "B"
  | StringHandler => ch "S"
  | DatetimeHandler => ch "D"
  | IntegerHandler => ch "I"
  | FloatHandler => ch "F"
  | ListHandler => ch "L"
  | TupleHandler => ch "T"
  | SetHandler => ch "s"
  | DictionaryHandler => ch "d"
  end.

Definition delimiter : char := ch ":".

(** [Factory.register]: a tag that is already present raises. *)
Definition registry : Type := list (char * handler).

Definition has_tag (reg : registry) (t : char) : bool :=
  existsb (fun entry => (fst entry =? t)%N) reg.

Definition register (reg : registry) (h : handler) : result registry :=
  if has_tag reg (tag h) then Raise KeyError else Ok (reg ++ [(tag h, h)]).

(** The classes decorated with [@Factory.register], in source order. *)
Definition registered : list handler :=
  [NoneHandler; BooleanHandler; StringHandler; DatetimeHandler;
   IntegerHandler; FloatHandler; ListHandler; TupleHandler;
   SetHandler; DictionaryHandler].

Definition register_all (hs : list handler) : result registry :=
  fold_left (fun acc h => reg <- acc ;; register reg h) hs (Ok []).

(** [Factory._tag_2_handler] once the module is loaded. *)
Definition _tag_2_handler : registry :=
  match register_all registered with
  | Ok reg => reg
  | Raise _ => []
  end.

Definition lookup_tag (reg : registry) (t : char) : option handler :=
  option_map snd (find (fun entry => (fst entry =? t)%N) reg).

(** [Handler.get_tag]: [raw[0]] *)
Definition get_tag (raw : str) : result char :=
  match raw with
  | c :: _ => Ok c
  | [] => Raise IndexError
  end.

(** [Factory.get_by_raw_data] *)
Definition get_by_raw_data (raw : str) : result handler :=
  t <- get_tag raw ;;
  match lookup_tag _tag_2_handler t with
  | Some h => Ok h
  | None => Raise KeyError
  end.

(** [Factory.get_by_data]: [_type_2_handler[type(data)]]; every
    constructor of [pyvalue] is the exact type of one registered
    factory. *)
Definition get_by_data (data : pyvalue) : handler :=
  match data with
  | VNone => NoneHandler
  | VBool _ => BooleanHandler
  | VStr _ => StringHandler
  | VDatetime _ => DatetimeHandler
  | VInt _ => IntegerHandler
  | VFloat _ => FloatHandler
  | VList _ => ListHandler
  | VTuple _ => TupleHandler
  | VSet _ => SetHandler
  | VDict _ => DictionaryHandler
  end.

(** [Handler._pack] *)
Definition _pack (h : handler) (length : Z) (value : str) : result str :=
  length_str <- int_str length ;;
  Ok (tag h :: length_str ++ delimiter :: value).

(** The tail shared by every [encode]: the length of the text, and
    the packed fragment. *)
Definition pack_text (h : handler) (text : str) : result (str * Z) :=
  let length := len text in
  fragment <- _pack h length text ;;
  Ok (fragment, length).

Section JoinMap.

Variable A : Type.
Variable f : A -> result str.

(** The texts [f(x)] for [x] in [l], joined by the empty text: they
    are computed in the order of [l], and the first exception ends
    the iteration. *)
Fixpoint join_map (l : list A) : result str :=
  match l with
  | [] => Ok []
  | x :: l' =>
      text <- f x ;;
      rest <- join_map l' ;;
      Ok (text ++ rest)
  end.

End JoinMap.

Arguments join_map {A} f l.

Definition of_option {A : Type} (o : option A) : result A :=
  match o with
  | Some a => Ok a
  | None => Raise ValueError
  end.

Section WithBuiltins.

Context {builtins : Builtins}.

(** [_PyUnicode_TransformDecimalAndSpaceToASCII], one character.  (The
    interpreter cuts the text after the first question mark it writes;
    the integer syntax rejects the text at that character either
    way.) *)
Definition to_ascii (c : char) : char :=
  if (c <? 127)%N then c
  else if uni_isspace c then space
  else match uni_todecimal c with
       | Some d => (zero_digit + d)%N
       | None => question_mark
       end.

(** [int(s)] *)
Definition py_int (s : str) : result Z :=
  int_of_ascii (map to_ascii s).

(** [set(items)] *)
Definition py_set (items : list pyvalue) : result (list pyvalue) :=
  members <- py_set_from [] items ;;
  Ok (set_iter members).

(** [Handler._unpack] *)
Definition _unpack (raw : str) : result (str * Z * Z) :=
  t <- get_tag raw ;;
  let length_str := split_head delimiter (py_slice_from raw 1) in
  let value_offset := len length_str + 1 + 1 in
  length <- py_int length_str ;;
  let value := py_slice raw value_offset (value_offset + length) in
  Ok (value, length, value_offset).

(** [encode] of the handler that [get_by_data] selects. *)
Fixpoint encode (data : pyvalue) : result (str * Z) :=
  let fragment_of := fun i => '(fragment, _) <- encode i ;; Ok fragment in
  match data with
  | VNone => pack_text NoneHandler []
  | VBool b =>
      item_raw <- int_str (Z.b2z b) ;;
      pack_text BooleanHandler item_raw
  | VStr s => pack_text StringHandler s
  | VDatetime d =>
      value <- isoformat d ;;
      pack_text DatetimeHandler value
  | VInt z =>
      item_raw <- int_str z ;;
      pack_text IntegerHandler item_raw
  | VFloat f => pack_text FloatHandler (float_str f)
  | VList l =>
      data_str <- join_map fragment_of l ;;
      pack_text ListHandler data_str
  | VTuple l =>
      data_str <- join_map fragment_of l ;;
      pack_text TupleHandler data_str
  | VSet l =>
      data_str <- join_map fragment_of l ;;
      pack_text SetHandler data_str
  | VDict l =>
      data_str <-
        join_map (fun kv =>
                    pair_str <- join_map fragment_of [fst kv; snd kv] ;;
                    '(fragment, _) <- pack_text TupleHandler pair_str ;;
                    Ok fragment) l ;;
      pack_text DictionaryHandler data_str
  end.

(** [decode] of a handler, and the two [while] loops: the one of
    [GenericCollectionHandler.decode] and the one of
    [DictionaryHandler.decode].  No [decode] looks at the tag. *)
Fixpoint decode_fuel (fuel : nat) (h : handler) (raw : str) {struct fuel}
  : result (pyvalue * Z) :=
  match fuel with
  | O => Raise OutOfFuel
  | S fuel' =>
      '(value, length, offset) <- _unpack raw ;;
      match h with
      | NoneHandler => Ok (VNone, len value + offset)
      | BooleanHandler =>
          n <- py_int value ;;
          Ok (VBool (negb (n =? 0)), len value + offset)
      | StringHandler => Ok (VStr value, len value + offset)
      | DatetimeHandler =>
          d <- of_option (fromisoformat value) ;;
          Ok (VDatetime d, len value + offset)
      | IntegerHandler =>
          z <- py_int value ;;
          Ok (VInt z, len value + offset)
      | FloatHandler =>
          f <- of_option (float_of_str value) ;;
          Ok (VFloat f, len value + offset)
      | ListHandler =>
          items <- decode_items fuel' value 0 [] ;;
          Ok (VList items, len value + offset)
      | TupleHandler =>
          items <- decode_items fuel' value 0 [] ;;
          Ok (VTuple items, len value + offset)
      | SetHandler =>
          items <- decode_items fuel' value 0 [] ;;
          members <- py_set items ;;
          Ok (VSet members, len value + offset)
      | DictionaryHandler =>
          pairs <- decode_pairs fuel' value 0 [] ;;
          entries <- py_dict pairs ;;
          Ok (VDict entries, len value + offset)
      end
  end

with decode_items (fuel : nat) (value : str) (offset : Z) (items : list pyvalue)
  {struct fuel} : result (list pyvalue) :=
  match fuel with
  | O => Raise OutOfFuel
  | S fuel' =>
      if offset <? len value then
        let item_data := py_slice_from value offset in
        item_handler <- get_by_raw_data item_data ;;
        '(item, item_len) <- decode_fuel fuel' item_handler item_data ;;
        decode_items fuel' value (offset + item_len) (items ++ [item])
      else Ok items
  end

with decode_pairs (fuel : nat) (value : str) (offset : Z) (pairs : list pyvalue)
  {struct fuel} : result (list pyvalue) :=
  match fuel with
  | O => Raise OutOfFuel
  | S fuel' =>
      if offset <? len value then
        let pair_raw := py_slice_from value offset in
        '(pair_, pair_len) <- decode_fuel fuel' TupleHandler pair_raw ;;
        decode_pairs fuel' value (offset + pair_len) (pairs ++ [pair_])
      else Ok pairs
  end.

(** A text of [n] characters is decoded within [n + 1] units of fuel
    (see [decode_fuel_enough]). *)
Definition decode (h : handler) (raw : str) : result (pyvalue * Z) :=
  decode_fuel (S (length raw)) h raw.

(** [encode] is the one of [get_by_data data] (see [encode_shape]). *)
Definition dumps (data : pyvalue) : result str :=
  '(fragment, _) <- encode data ;;
  Ok fragment.

Definition loads (data : str) : result pyvalue :=
  handler <- get_by_raw_data data ;;
  '(v, _) <- decode handler data ;;
  Ok v.

End WithBuiltins.

(* ================================================================= *)
(** ** Vocabulary of the specification *)

Definition is_digit (c : char) : bool := ((48 <=? c) && (c <=? 57))%N.

(** The number that a run of decimal digits denotes. *)
Fixpoint horner (acc : Z) (ds : str) : Z :=
  match ds with
  | [] => acc
  | c :: ds' => horner (10 * acc + Z.of_N (c - 48)) ds'
  end.

(** No two members are equal under [==]. *)
Fixpoint distinct (l : list pyvalue) : bool :=
  match l with
  | [] => true
  | x :: l' =>
      negb (existsb (fun y => py_eq x y || py_eq y x) l') && distinct l'
  end.

(** The values that the interpreter can build: a float is a binary64
    number, a datetime lies in the supported range, the members of a
    set and the keys of a dictionary are hashable and pairwise
    different. *)
Fixpoint supported (v : pyvalue) : bool :=
  match v with
  | VNone | VBool _ | VStr _ | VInt _ => true
  | VDatetime d => valid_datetime d
  | VFloat f => valid_float f
  | VList l => forallb supported l
  | VTuple l => forallb supported l
  | VSet l => forallb supported l && forallb hashable l && distinct l
  | VDict l =>
      forallb (fun kv => supported (fst kv) && supported (snd kv)) l &&
      forallb (fun kv => hashable (fst kv)) l &&
      distinct (map fst l)
  end.

Section Pointwise.

Variable A : Type.
Variable R : A -> A -> Prop.

Fixpoint pointwise (l m : list A) {struct l} : Prop :=
  match l, m with
  | [], [] => True
  | x :: l', y :: m' => R x y /\ pointwise l' m'
  | _, _ => False
  end.

End Pointwise.

Arguments pointwise {A} R l m.

(** The same value up to the order in which sets iterate: sequences
    have the same members position by position, dictionaries the same
    keys in the same order, sets the same members. *)
Fixpoint same (a b : pyvalue) {struct a} : Prop :=
  match a with
  | VList l => match b with VList m => pointwise same l m | _ => False end
  | VTuple l => match b with VTuple m => pointwise same l m | _ => False end
  | VSet l => match b with VSet m => Permutation l m | _ => False end
  | VDict l =>
      match b with
      | VDict m =>
          pointwise (fun kv kv' =>
                       fst kv = fst kv' /\ same (snd kv) (snd kv')) l m
      | _ => False
      end
  | _ => a = b
  end.

(** The tuple that [DictionaryHandler.decode] reads for an entry. *)
Definition as_tuple (kv : pyvalue * pyvalue) : pyvalue :=
  VTuple [fst kv; snd kv].



(** 2020-11-01 01:30 in New York, an hour that the clocks show twice:
    four hours behind UTC the first time, five hours the second. *)
Definition repeated_hour : datetime :=
  {| dt_local := 63739791000000000;
     dt_fold := false;
     dt_tzinfo := Some (RuleBased 1 (-14400000000) (-18000000000)) |}.


(** The value with every datetime inside as [fromisoformat] reads it
    back: what the encoding of a value keeps of its datetimes. *)
Fixpoint normal_time (v : pyvalue) : pyvalue :=
  match v with
  | VDatetime d => VDatetime (decoded d)
  | VList l => VList (map normal_time l)
  | VTuple l => VTuple (map normal_time l)
  | VSet l => VSet (map normal_time l)
  | VDict l =>
      VDict (map (fun kv => (normal_time (fst kv), normal_time (snd kv))) l)
  | _ => v
  end.




(** The members that [set(items)] keeps and the entries that
    [dict(pairs)] keeps, when every member and every key is
    hashable. *)
Definition set_members (items : list pyvalue) : list pyvalue :=
  fold_left (fun acc x => set_add x acc) items [].

Definition dict_entries (pairs : list (pyvalue * pyvalue))
  : list (pyvalue * pyvalue) :=
  fold_left (fun acc kv => dict_set (fst kv) (snd kv) acc) pairs [].

(** The value that the decoder builds from the encoding of [v] (see
    [decode_encoded]): a datetime is the one that [fromisoformat]
    reads, a set and a dictionary are built anew from the decoded
    members and entries. *)
Fixpoint decoded_value {builtins : Builtins} (v : pyvalue) : pyvalue :=
  match v with
  | VDatetime d => VDatetime (decoded d)
  | VList l => VList (map decoded_value l)
  | VTuple l => VTuple (map decoded_value l)
  | VSet l => VSet (set_iter (set_members (map decoded_value l)))
  | VDict l =>
      VDict (dict_entries
               (map (fun kv => (decoded_value (fst kv), decoded_value (snd kv)))
                  l))
  | _ => v
  end.

(** [v] round-trips: whenever it is encoded, its handler decodes the
    fragment, whatever text follows, to [decoded_value v] and to the
    length of the fragment. *)
Definition roundtrips {builtins : Builtins} (v : pyvalue) : Prop :=
  supported v = true ->
  forall (fragment : str) (n : Z),
    encode v = Ok (fragment, n) ->
    forall (fuel : nat) (rest : str),
      (length fragment < fuel)%nat ->
      decode_fuel fuel (get_by_data v) (fragment ++ rest) =
      Ok (decoded_value v, len fragment).

(* ================================================================= *)
(** ** A reference interpretation of the built-ins

    Simple text forms that meet the contracts of [Builtins]: they
    show that the contracts can be met, and they let the codec run on
    concrete texts.  Integers are in ASCII only.  A float is written
    [nan], [inf], [-inf], [0.0] or [-0.0] as the interpreter writes
    them, and otherwise as its signed significand and its binary
    exponent around the letter [p]; a datetime as its microsecond
    count, followed for an aware one by a slash and its offset, and
    the text of a datetime with an offset of a day or more raises.  A
    set iterates in the order of insertion. *)

Definition exponent_mark : char := ch "p".
Definition offset_mark : char := ch "/".

Definition ref_int (s : str) : option Z :=
  match s with
  | [] => None
  | c :: ds =>
      if (c =? minus_sign)%N then
        match ds with
        | [] => None
        | _ :: _ => if forallb is_digit ds then Some (- horner 0 ds) else None
        end
      else if forallb is_digit s then Some (horner 0 s) else None
  end.

Definition ref_float_str (f : pyfloat) : str :=
  match f with
  | S754_nan => lit "nan"
  | S754_infinity false => lit "inf"
  | S754_infinity true => lit "-inf"
  | S754_zero false => lit "0.0"
  | S754_zero true => lit "-0.0"
  | S754_finite s m e =>
      str_of_Z (if s then Z.neg m else Z.pos m) ++
      exponent_mark :: str_of_Z e
  end.

Definition ref_float_of_str (s : str) : option pyfloat :=
  if str_eq s (lit "nan") then Some S754_nan
  else if str_eq s (lit "inf") then Some (S754_infinity false)
  else if str_eq s (lit "-inf") then Some (S754_infinity true)
  else if str_eq s (lit "0.0") then Some (S754_zero false)
  else if str_eq s (lit "-0.0") then Some (S754_zero true)
  else
    let m_str := split_head exponent_mark s in
    match ref_int m_str, ref_int (skipn (S (length m_str)) s) with
    | Some (Z.pos m), Some e => Some (S754_finite false m e)
    | Some (Z.neg m), Some e => Some (S754_finite true m e)
    | _, _ => None
    end.

Definition ref_isoformat (d : datetime) : result str :=
  if valid_datetime d then
    Ok (str_of_Z (dt_local d) ++
        match utcoffset d with
        | None => []
        | Some o => offset_mark :: str_of_Z o
        end)
  else Raise ValueError.

Definition ref_fromisoformat (s : str) : option datetime :=
  let l_str := split_head offset_mark s in
  match ref_int l_str with
  | None => None
  | Some t =>
      if (length l_str =? length s)%nat then Some (mk_datetime t false None)
      else
        match ref_int (skipn (S (length l_str)) s) with
        | Some o => Some (mk_datetime t false (Some (FixedOffset o)))
        | None => None
        end
  end.

Definition reference_builtins : Builtins :=
  {| uni_isspace := fun _ => false;
     uni_todecimal := fun _ => None;
     float_str := ref_float_str;
     float_of_str := ref_float_of_str;
     isoformat := ref_isoformat;
     fromisoformat := ref_fromisoformat;
     set_iter := fun members => members |}.

(** The characters of the text of an integer. *)
Definition int_char (c : char) : bool :=
  is_digit c || (c =? minus_sign)%N.

(** A text that [loads] cannot start on: it is empty, or its first
    character is no registered tag, or [int] rejects its length
    field. *)
Definition malformed {builtins : Builtins} (raw : str) : Prop :=
  match raw with
  | [] => True
  | t :: r =>
      lookup_tag _tag_2_handler t = None \/
      exists e, py_int (split_head delimiter r) = Raise e
  end.

(** The exception of each case: the empty text has no first character,
    the tag is looked up before the length field is read. *)
Definition malformed_error (raw : str) : exn :=
  match raw with
  | [] => IndexError
  | t :: _ =>
      match lookup_tag _tag_2_handler t with
      | None => KeyError
      | Some _ => ValueError
      end
  end.

(** A fragment whose declared length is the length of its payload. *)
Definition well_formed {builtins : Builtins} (f : str) : Prop :=
  exists (t : char) (length_str payload : str),
    f = t :: length_str ++ delimiter :: payload /\
    ~ In delimiter length_str /\
    py_int length_str = Ok (len payload).

(** What [loads] computes before it drops the consumed length. *)
Definition decode_fragment {builtins : Builtins} (raw : str)
  : result (pyvalue * Z) :=
  handler <- get_by_raw_data raw ;;
  decode handler raw.

(* ================================================================= *)
(** ** The factory with its two dictionaries *)

(** The runtime types that the handlers declare as their [factory]. *)
Inductive pytype : Type :=
  | TNone
  | TBool
  | TStr
  | TDatetime
  | TInt
  | TFloat
  | TList
  | TTuple
  | TSet
  | TDict.

Definition pytype_eqb (a b : pytype) : bool :=
  match a, b with
  | TNone, TNone | TBool, TBool | TStr, TStr | TDatetime, TDatetime
  | TInt, TInt | TFloat, TFloat | TList, TList | TTuple, TTuple
  | TSet, TSet | TDict, TDict => true
  | _, _ => false
  end.

Definition factory (h : handler) : pytype :=
  match h with
  | NoneHandler => TNone
  | BooleanHandler => TBool
  | StringHandler => TStr
  | DatetimeHandler => TDatetime
  | IntegerHandler => TInt
  | FloatHandler => TFloat
  | ListHandler => TList
  | TupleHandler => TTuple
  | SetHandler => TSet
  | DictionaryHandler => TDict
  end.

(** [type(data)] *)
Definition type_of (data : pyvalue) : pytype :=
  match data with
  | VNone => TNone
  | VBool _ => TBool
  | VStr _ => TStr
  | VDatetime _ => TDatetime
  | VInt _ => TInt
  | VFloat _ => TFloat
  | VList _ => TList
  | VTuple _ => TTuple
  | VSet _ => TSet
  | VDict _ => TDict
  end.

Record Factory : Type := mk_Factory {
  tag_2_handler : registry;
  type_2_handler : list (pytype * handler)
}.

(** [d[k] = h] on a dictionary keyed by types: an entry of the same
    key takes the new handler, a new key goes last. *)
Fixpoint type_put (k : pytype) (h : handler) (d : list (pytype * handler))
  : list (pytype * handler) :=
  match d with
  | [] => [(k, h)]
  | (k', h') :: d' =>
      if pytype_eqb k' k then (k', h) :: d' else (k', h') :: type_put k h d'
  end.

Definition lookup_type (d : list (pytype * handler)) (k : pytype)
  : option handler :=
  option_map snd (find (fun entry => pytype_eqb (fst entry) k) d).

(** [Factory.register], on both dictionaries: only the tag is checked,
    the dictionary of the types is written without a check. *)
Definition Factory_register (F : Factory) (h : handler) : result Factory :=
  if has_tag (tag_2_handler F) (tag h) then Raise KeyError
  else Ok {| tag_2_handler := tag_2_handler F ++ [(tag h, h)];
             type_2_handler := type_put (factory h) h (type_2_handler F) |}.

(** The factory once the module is loaded. *)
Definition Factory_load : result Factory :=
  fold_left (fun acc h => F <- acc ;; Factory_register F h) registered
    (Ok {| tag_2_handler := []; type_2_handler := [] |}).

(** [Factory.get_by_data] on a given state of the factory. *)
Definition Factory_get_by_data (F : Factory) (data : pyvalue)
  : result handler :=
  match lookup_type (type_2_handler F) (type_of data) with
  | Some h => Ok h
  | None => Raise KeyError
  end.

(** The entry that [register] writes for a handler. *)
Definition entry_of (h : handler) : char * handler := (tag h, h).

(* ================================================================= *)
(** ** More vocabulary *)


(** A fragment that decodes to [v] and is consumed to its last
    character. *)
Definition exact_fragment {builtins : Builtins} (f : str) (v : pyvalue)
  : Prop :=
  well_formed f /\ decode_fragment f = Ok (v, len f).

(** A fragment that the pair handler decodes to [v] and consumes to
    its last character, whatever its tag is. *)
Definition exact_pair {builtins : Builtins} (f : str) (v : pyvalue) : Prop :=
  well_formed f /\ decode TupleHandler f = Ok (v, len f).

(** [v1] is told apart: a supported value with the encoding of [v1]
    differs from [v1] at most in what [isoformat] does not show of a
    datetime. *)
Definition told_apart {builtins : Builtins} (v1 : pyvalue) : Prop :=
  supported v1 = true ->
  forall (v2 : pyvalue) (f : str),
    supported v2 = true ->
    dumps v1 = Ok f ->
    dumps v2 = Ok f ->
    normal_time v1 = normal_time v2.

(* ================================================================= *)
(** * Properties *)

(** ** Induction on nested values *)

Section PyvalueInd.

Variable P : pyvalue -> Prop.
Hypothesis HNone : P VNone.
Hypothesis HBool : forall b, P (VBool b).
Hypothesis HStr : forall s, P (VStr s).
Hypothesis HDatetime : forall d, P (VDatetime d).
Hypothesis HInt : forall z, P (VInt z).
Hypothesis HFloat : forall f, P (VFloat f).
Hypothesis HList : forall l, Forall P l -> P (VList l).
Hypothesis HTuple : forall l, Forall P l -> P (VTuple l).
Hypothesis HSet : forall l, Forall P l -> P (VSet l).
Hypothesis HDict :
  forall l, Forall (fun kv => P (fst kv) /\ P (snd kv)) l -> P (VDict l).

Fixpoint pyvalue_ind (v : pyvalue) : P v :=
  let fix all (l : list pyvalue) : Forall P l :=
    match l with
    | [] => Forall_nil P
    | x :: l' => Forall_cons x (pyvalue_ind x) (all l')
    end in
  let fix all2 (l : list (pyvalue * pyvalue))
    : Forall (fun kv => P (fst kv) /\ P (snd kv)) l :=
    match l with
    | [] => Forall_nil _
    | kv :: l' =>
        Forall_cons kv (conj (pyvalue_ind (fst kv)) (pyvalue_ind (snd kv)))
          (all2 l')
    end in
  match v with
  | VNone => HNone
  | VBool b => HBool b
  | VStr s => HStr s
  | VDatetime d => HDatetime d
  | VInt z => HInt z
  | VFloat f => HFloat f
  | VList l => HList l (all l)
  | VTuple l => HTuple l (all l)
  | VSet l => HSet l (all l)
  | VDict l => HDict l (all2 l)
  end.

End PyvalueInd.

(** ** Lengths and slices *)

Lemma len_app {A : Type} (l m : list A) : len (l ++ m) = len l + len m.
Proof. unfold len. rewrite length_app. lia. Qed.

Lemma len_nonneg {A : Type} (l : list A) : 0 <= len l.
Proof. unfold len. lia. Qed.

Lemma len_cons {A : Type} (x : A) (l : list A) : len (x :: l) = 1 + len l.
Proof. unfold len. cbn [length]. lia. Qed.

Lemma len_nil (A : Type) : len (@nil A) = 0.
Proof. reflexivity. Qed.

Lemma slice_index_inside n i : 0 <= i <= n -> slice_index n i = i.
Proof.
  intros H. unfold slice_index.
  destruct (Z.ltb_spec i 0); lia.
Qed.

Lemma slice_index_beyond n i : 0 <= n <= i -> slice_index n i = n.
Proof.
  intros H. unfold slice_index.
  destruct (Z.ltb_spec i 0); lia.
Qed.

Lemma skipn_len_app {A : Type} (pre s : list A) :
  skipn (Z.to_nat (len pre)) (pre ++ s) = s.
Proof.
  unfold len. rewrite Nat2Z.id.
  induction pre as [|x pre IH]; [reflexivity | exact IH].
Qed.

Lemma py_slice_from_app (pre s : str) :
  py_slice_from (pre ++ s) (len pre) = s.
Proof.
  unfold py_slice_from.
  rewrite slice_index_inside.
  - apply skipn_len_app.
  - rewrite len_app. pose proof (len_nonneg pre). pose proof (len_nonneg s). lia.
Qed.

(** A slice that starts after a prefix [pre] and asks for [n >= 0]
    characters takes what there is, up to [n]. *)
Lemma py_slice_app (pre body : str) (n : Z) :
  0 <= n ->
  py_slice (pre ++ body) (len pre) (len pre + n) = firstn (Z.to_nat n) body.
Proof.
  intros Hn. unfold py_slice.
  pose proof (len_nonneg pre) as Hp. pose proof (len_nonneg body) as Hb.
  rewrite (slice_index_inside _ (len pre)) by (rewrite len_app; lia).
  rewrite skipn_len_app.
  destruct (Z.le_gt_cases (len pre + n) (len (pre ++ body))) as [Hle|Hgt].
  - rewrite slice_index_inside by lia.
    f_equal. lia.
  - rewrite slice_index_beyond by (pose proof (len_nonneg (pre ++ body)); lia).
    rewrite len_app in *.
    replace (len pre + len body - len pre) with (len body) by lia.
    unfold len at 1. rewrite Nat2Z.id.
    rewrite firstn_all. symmetry. apply firstn_all2.
    unfold len in Hgt. lia.
Qed.

Lemma firstn_len_app {A : Type} (l m : list A) :
  firstn (Z.to_nat (len l)) (l ++ m) = l.
Proof.
  unfold len. rewrite Nat2Z.id.
  rewrite firstn_app, Nat.sub_diag, firstn_all. cbn. apply app_nil_r.
Qed.

Lemma split_head_app (d : char) (l r : str) :
  ~ In d l -> split_head d (l ++ d :: r) = l.
Proof.
  induction l as [|c l IH]; intros Hin; cbn.
  - now rewrite N.eqb_refl.
  - destruct (N.eqb_spec c d) as [->|Hne].
    + exfalso. apply Hin. now left.
    + f_equal. apply IH. intros H. apply Hin. now right.
Qed.

(** ** Integers and their text *)

Lemma digits_fuel_spec (fuel : nat) :
  forall n acc,
    0 <= n < 2 ^ Z.of_nat fuel ->
    exists ds,
      digits_fuel fuel n acc = ds ++ acc /\
      (fuel <> O -> ds <> []) /\
      forallb is_digit ds = true /\
      forall a, horner a ds = a * 10 ^ len ds + n.
Proof.
  induction fuel as [|fuel IH]; intros n acc Hn.
  - exists []. cbn in *. repeat split; try congruence. intros a. lia.
  - cbn [digits_fuel].
    assert (Hmod : 0 <= n mod 10 < 10) by (apply Z.mod_pos_bound; lia).
    assert (Hdiv : n = 10 * (n / 10) + n mod 10) by (apply Z.div_mod; lia).
    assert (Hd : is_digit (zero_digit + Z.to_N (n mod 10))%N = true).
    { unfold is_digit, zero_digit.
      apply andb_true_intro; split; apply N.leb_le; lia. }
    assert (Hv : Z.of_N (zero_digit + Z.to_N (n mod 10) - 48)%N = n mod 10).
    { unfold zero_digit. lia. }
    destruct (Z.eqb_spec (n / 10) 0) as [Hz|Hnz].
    + exists [(zero_digit + Z.to_N (n mod 10))%N].
      repeat split; try congruence.
      * cbn [forallb]. now rewrite Hd.
      * intros a. cbn [horner]. rewrite Hv. rewrite len_cons, len_nil.
        change (1 + 0) with 1. lia.
    + assert (Hq : 0 <= n / 10 < 2 ^ Z.of_nat fuel).
      { split; [apply Z.div_pos; lia|].
        rewrite Nat2Z.inj_succ, Z.pow_succ_r in Hn by lia.
        apply Z.div_lt_upper_bound; lia. }
      destruct (IH (n / 10) ((zero_digit + Z.to_N (n mod 10))%N :: acc) Hq)
        as (ds & Heq & _ & Hall & Hval).
      exists (ds ++ [(zero_digit + Z.to_N (n mod 10))%N]).
      repeat split.
      * rewrite Heq. now rewrite <- app_assoc.
      * intros _ H. now destruct ds.
      * rewrite forallb_app, Hall. cbn [forallb]. now rewrite Hd.
      * intros a.
        assert (Hh : forall l b c, horner b (l ++ [c]) =
                                   10 * horner b l + Z.of_N (c - 48)).
        { induction l as [|x l IHl]; intros b c; cbn; [reflexivity|].
          apply IHl. }
        rewrite Hh, Hval, Hv, len_app, len_cons, len_nil.
        rewrite Z.pow_add_r by (pose proof (len_nonneg ds); lia).
        change (10 ^ (1 + 0)) with 10. lia.
Qed.

Lemma str_of_nonneg_spec (n : Z) :
  0 <= n ->
  str_of_nonneg n <> [] /\
  forallb is_digit (str_of_nonneg n) = true /\
  horner 0 (str_of_nonneg n) = n.
Proof.
  intros Hn. unfold str_of_nonneg.
  assert (Hb : 0 <= n < 2 ^ Z.of_nat (S (Z.to_nat (Z.log2 n)))).
  { split; [assumption|].
    rewrite Nat2Z.inj_succ, Z2Nat.id by apply Z.log2_nonneg.
    destruct (Z.eq_dec n 0) as [->|Hne]; [reflexivity|].
    apply Z.log2_spec. lia. }
  destruct (digits_fuel_spec (S (Z.to_nat (Z.log2 n))) n [] Hb)
    as (ds & Heq & Hne & Hall & Hval).
  rewrite Heq, app_nil_r.
  repeat split; auto.
Qed.

Lemma is_digit_bounds (c : char) :
  is_digit c = true -> (48 <= c <= 57)%N.
Proof.
  unfold is_digit. intros H. apply andb_prop in H as [H1 H2].
  apply N.leb_le in H1. apply N.leb_le in H2. lia.
Qed.

Lemma digit_value_digit (c : char) :
  is_digit c = true -> digit_value c = Some (Z.of_N (c - 48)).
Proof. unfold is_digit, digit_value. now intros ->. Qed.

Lemma digit_not_space (c : char) :
  is_digit c = true -> is_ascii_space c = false.
Proof.
  intros H. apply is_digit_bounds in H. unfold is_ascii_space.
  destruct (N.leb_spec c 13); [lia|].
  rewrite andb_false_r. cbn. apply N.eqb_neq. lia.
Qed.

Lemma digit_neq (c d : char) :
  is_digit c = true -> is_digit d = false -> (c =? d)%N = false.
Proof.
  intros Hc Hd. apply N.eqb_neq. intros ->. congruence.
Qed.

Lemma scan_digits_all (ds : str) :
  forall prev acc digits,
    forallb is_digit ds = true ->
    (prev =? underscore)%N = false ->
    scan_digits prev acc digits ds = Some (horner acc ds, digits + len ds, []).
Proof.
  induction ds as [|c ds IH]; intros prev acc digits Hall Hprev;
    cbn [scan_digits horner].
  - rewrite Hprev, len_nil. do 3 f_equal. lia.
  - cbn in Hall. apply andb_prop in Hall as [Hc Hall].
    rewrite (digit_value_digit _ Hc).
    rewrite IH; [|assumption|now apply digit_neq].
    rewrite len_cons. do 3 f_equal. lia.
Qed.

Lemma delimiter_not_digit (ds : str) :
  forallb is_digit ds = true -> ~ In delimiter ds.
Proof.
  intros Hall Hin.
  rewrite forallb_forall in Hall. apply Hall in Hin. discriminate Hin.
Qed.

Section IntegerText.

Context {builtins : Builtins}.

Lemma to_ascii_digits (ds : str) :
  forallb is_digit ds = true -> map to_ascii ds = ds.
Proof.
  induction ds as [|c ds IH]; intros Hall; cbn; [reflexivity|].
  cbn in Hall. apply andb_prop in Hall as [Hc Hall].
  rewrite (IH Hall). f_equal.
  unfold to_ascii. apply is_digit_bounds in Hc.
  destruct (N.ltb_spec c 127); [reflexivity | lia].
Qed.

(** A run of digits, with or without a minus sign in front, is read
    as its number when it is within the limit, and refused beyond. *)
Lemma py_int_digits (ds : str) :
  ds <> [] ->
  forallb is_digit ds = true ->
  py_int ds =
  (if too_many_digits (len ds) then Raise ValueError else Ok (horner 0 ds)) /\
  py_int (minus_sign :: ds) =
  (if too_many_digits (len ds) then Raise ValueError
   else Ok (- horner 0 ds)).
Proof.
  intros Hne Hall.
  destruct ds as [|c r]; [congruence|].
  assert (Hc : is_digit c = true) by (cbn in Hall; now apply andb_prop in Hall).
  pose proof (scan_digits_all (c :: r) 0%N 0 0 Hall eq_refl) as Hscan.
  rewrite Z.add_0_l in Hscan.
  split; unfold py_int, int_of_ascii.
  - rewrite (to_ascii_digits _ Hall).
    cbn [lstrip]. rewrite (digit_not_space _ Hc).
    rewrite (digit_neq c plus_sign Hc eq_refl).
    rewrite (digit_neq c minus_sign Hc eq_refl).
    rewrite (digit_value_digit _ Hc), Hscan. cbn [lstrip].
    destruct (too_many_digits _); [reflexivity|].
    f_equal; lia.
  - change (map to_ascii (minus_sign :: c :: r))
      with (to_ascii minus_sign :: map to_ascii (c :: r)).
    rewrite (to_ascii_digits _ Hall).
    change (to_ascii minus_sign) with minus_sign.
    cbn [lstrip]. change (is_ascii_space minus_sign) with false. cbv iota.
    change (minus_sign =? plus_sign)%N with false.
    change (minus_sign =? minus_sign)%N with true. cbv iota.
    rewrite (digit_value_digit _ Hc), Hscan. cbn [lstrip].
    destruct (too_many_digits _); [reflexivity|].
    f_equal; lia.
Qed.

(** [int] on the decimal text of [z]: [z] within the limit, a
    ValueError beyond. *)
Lemma py_int_str_of_Z (z : Z) :
  py_int (str_of_Z z) =
  (if too_many_digits (decimal_digits z) then Raise ValueError else Ok z).
Proof.
  unfold str_of_Z, decimal_digits.
  destruct (Z.ltb_spec z 0) as [Hneg|Hpos].
  - replace (Z.abs z) with (- z) by lia.
    destruct (str_of_nonneg_spec (- z)) as (Hne & Hall & Hval); [lia|].
    destruct (py_int_digits _ Hne Hall) as [_ ->].
    destruct (too_many_digits _); [reflexivity|]. f_equal; lia.
  - replace (Z.abs z) with z by lia.
    destruct (str_of_nonneg_spec z Hpos) as (Hne & Hall & Hval).
    destruct (py_int_digits _ Hne Hall) as [-> _].
    destruct (too_many_digits _); [reflexivity|]. now f_equal.
Qed.

(** [int(str(z)) == z], whenever [str(z)] is a text. *)
Lemma py_int_int_str (z : Z) (text : str) :
  int_str z = Ok text -> text = str_of_Z z /\ py_int text = Ok z.
Proof.
  unfold int_str. intros H.
  pose proof (py_int_str_of_Z z) as Hint.
  destruct (too_many_digits (decimal_digits z)); [discriminate|].
  injection H as <-. now split.
Qed.

End IntegerText.

Lemma digits_fuel_size (fuel : nat) :
  forall n acc,
    0 <= n < 2 ^ Z.of_nat fuel ->
    exists ds,
      digits_fuel fuel n acc = ds ++ acc /\
      n < 10 ^ len ds /\
      (0 < n -> 10 ^ (len ds - 1) <= n).
Proof.
  induction fuel as [|fuel IH]; intros n acc Hn.
  - exists []. cbn in *. repeat split; lia.
  - cbn [digits_fuel].
    assert (Hmod : 0 <= n mod 10 < 10) by (apply Z.mod_pos_bound; lia).
    assert (Hdiv : n = 10 * (n / 10) + n mod 10) by (apply Z.div_mod; lia).
    destruct (Z.eqb_spec (n / 10) 0) as [Hz|Hnz].
    + exists [(zero_digit + Z.to_N (n mod 10))%N].
      rewrite len_cons, len_nil. change (1 + 0) with 1.
      repeat split.
      * change (10 ^ 1) with 10. lia.
      * intros Hpos. change (10 ^ (1 - 1)) with 1. lia.
    + assert (Hq : 0 <= n / 10 < 2 ^ Z.of_nat fuel).
      { split; [apply Z.div_pos; lia|].
        rewrite Nat2Z.inj_succ, Z.pow_succ_r in Hn by lia.
        apply Z.div_lt_upper_bound; lia. }
      destruct (IH (n / 10) ((zero_digit + Z.to_N (n mod 10))%N :: acc) Hq)
        as (ds & Heq & Hup & Hlow).
      exists (ds ++ [(zero_digit + Z.to_N (n mod 10))%N]).
      rewrite len_app, len_cons, len_nil.
      pose proof (len_nonneg ds) as Hlen.
      assert (Hds : 1 <= len ds).
      { destruct (Z.eq_dec (len ds) 0) as [H0|H0]; [|lia].
        rewrite H0 in Hup. change (10 ^ 0) with 1 in Hup. lia. }
      replace (len ds + (1 + 0)) with (Z.succ (len ds)) by lia.
      replace (Z.succ (len ds) - 1) with (len ds) by lia.
      rewrite Z.pow_succ_r by lia.
      assert (Hpow : 10 ^ len ds = 10 * 10 ^ (len ds - 1)).
      { rewrite <- Z.pow_succ_r by lia. f_equal. lia. }
      specialize (Hlow ltac:(lia)).
      repeat split.
      * rewrite Heq. now rewrite <- app_assoc.
      * lia.
      * intros _. lia.
Qed.

(** A number of [k] decimal digits lies from [10 ^ (k - 1)] to below
    [10 ^ k]; zero has one digit. *)
Lemma decimal_digits_bounds (z : Z) :
  Z.abs z < 10 ^ decimal_digits z /\
  (z <> 0 -> 10 ^ (decimal_digits z - 1) <= Z.abs z).
Proof.
  unfold decimal_digits, str_of_nonneg.
  set (n := Z.abs z).
  assert (Hn : 0 <= n) by (unfold n; lia).
  assert (Hb : 0 <= n < 2 ^ Z.of_nat (S (Z.to_nat (Z.log2 n)))).
  { split; [assumption|].
    rewrite Nat2Z.inj_succ, Z2Nat.id by apply Z.log2_nonneg.
    destruct (Z.eq_dec n 0) as [->|Hne]; [reflexivity|].
    apply Z.log2_spec. lia. }
  destruct (digits_fuel_size (S (Z.to_nat (Z.log2 n))) n [] Hb)
    as (ds & Heq & Hup & Hlow).
  rewrite Heq, app_nil_r. split; [assumption|].
  intros Hz. apply Hlow. unfold n. lia.
Qed.

(** An integer has more digits than the limit exactly from
    [10 ^ 4300] on, in absolute value. *)
Lemma too_many_digits_iff (z : Z) :
  too_many_digits (decimal_digits z) = true <-> length_limit <= Z.abs z.
Proof.
  unfold too_many_digits, length_limit.
  destruct (decimal_digits_bounds z) as [Hup Hlow].
  assert (Hlimit : 1 <= int_max_str_digits) by discriminate.
  assert (Hzero : z = 0 -> decimal_digits z = 1) by now intros ->.
  revert Hup Hlow Hlimit Hzero.
  generalize int_max_str_digits as m, (decimal_digits z) as k.
  intros m k Hup Hlow Hm Hzero. rewrite Z.ltb_lt. split.
  - intros Hk.
    assert (Hz : z <> 0) by (intros H0; specialize (Hzero H0); lia).
    specialize (Hlow Hz).
    assert (10 ^ m <= 10 ^ (k - 1)) by (apply Z.pow_le_mono_r; lia).
    lia.
  - intros Hz. destruct (Z.lt_ge_cases m k) as [H|H]; [assumption|].
    assert (10 ^ k <= 10 ^ m).
    { destruct (Z.le_gt_cases 0 k).
      - apply Z.pow_le_mono_r; lia.
      - rewrite (Z.pow_neg_r 10 k) by lia.
        apply Z.pow_nonneg. lia. }
    lia.
Qed.

(** [str] gives the decimal text of every integer below the bound,
    and raises from the bound on. *)
Lemma int_str_small (n : Z) :
  Z.abs n < length_limit -> int_str n = Ok (str_of_Z n).
Proof.
  intros Hn. unfold int_str.
  destruct (too_many_digits (decimal_digits n)) eqn:E; [|reflexivity].
  apply too_many_digits_iff in E. lia.
Qed.


Lemma str_of_Z_no_delimiter (z : Z) : ~ In delimiter (str_of_Z z).
Proof.
  unfold str_of_Z.
  destruct (Z.ltb_spec z 0) as [Hneg|Hpos].
  - intros [H|H]; [discriminate H|].
    revert H. apply delimiter_not_digit.
    apply str_of_nonneg_spec. lia.
  - apply delimiter_not_digit. now apply str_of_nonneg_spec.
Qed.

Lemma str_of_Z_not_nil (z : Z) : str_of_Z z <> [].
Proof.
  unfold str_of_Z.
  destruct (Z.ltb_spec z 0) as [Hneg|Hpos]; [discriminate|].
  now apply str_of_nonneg_spec.
Qed.

(** ** Framing: what [_unpack] reads *)

Lemma bind_Ok {A B : Type} (c : result A) (k : A -> result B) (b : B) :
  bind c k = Ok b -> exists a, c = Ok a /\ k a = Ok b.
Proof. destruct c as [a|e]; cbn; [eauto | discriminate]. Qed.

Lemma py_slice_length (s : str) (a b : Z) :
  (length (py_slice s a b) <=
   length s - Z.to_nat (slice_index (len s) a))%nat.
Proof.
  unfold py_slice.
  rewrite length_firstn, length_skipn. lia.
Qed.

Lemma py_slice_beyond (s : str) (a b : Z) :
  len s <= a -> py_slice s a b = [].
Proof.
  intros H. unfold py_slice.
  rewrite (slice_index_beyond (len s) a)
    by (pose proof (len_nonneg s); lia).
  pose proof (skipn_len_app s []) as Hs. rewrite app_nil_r in Hs.
  rewrite Hs. apply firstn_nil.
Qed.

Lemma py_slice_from_tail (t : char) (r : str) : py_slice_from (t :: r) 1 = r.
Proof. exact (py_slice_from_app [t] r). Qed.

Section Framing.

Context {builtins : Builtins}.

Lemma py_int_nil : py_int [] = Raise ValueError.
Proof. reflexivity. Qed.

(** The fields of a text that holds a tag, a length text free of the
    delimiter, the delimiter, and anything after it: the value is what
    is there, up to the declared length. *)
Lemma unpack_framed (t : char) (length_str body : str) (n : Z) :
  ~ In delimiter length_str ->
  py_int length_str = Ok n ->
  0 <= n ->
  _unpack (t :: length_str ++ delimiter :: body) =
  Ok (firstn (Z.to_nat n) body, n, len length_str + 2).
Proof.
  intros Hd Hint Hn. unfold _unpack. cbn [get_tag bind].
  rewrite py_slice_from_tail, split_head_app by assumption.
  rewrite Hint. cbn [bind].
  change (t :: length_str ++ delimiter :: body)
    with ((t :: length_str) ++ [delimiter] ++ body).
  rewrite app_assoc.
  replace (len length_str + 1 + 1)
    with (len ((t :: length_str) ++ [delimiter]))
    by (rewrite len_app, !len_cons, len_nil; lia).
  rewrite py_slice_app by assumption.
  do 3 f_equal. rewrite len_app, !len_cons, len_nil. lia.
Qed.

(** What [_pack] writes: the tag, the decimal text of the length, which
    [int] reads back, the delimiter and the value. *)
Lemma pack_Ok (h : handler) (n : Z) (value f : str) :
  _pack h n value = Ok f ->
  f = tag h :: str_of_Z n ++ delimiter :: value /\
  py_int (str_of_Z n) = Ok n.
Proof.
  unfold _pack. intros H. apply bind_Ok in H as (length_str & Hs & H).
  apply py_int_int_str in Hs as [-> Hint]. injection H as <-. now split.
Qed.

Lemma pack_text_Ok (h : handler) (text f : str) (n : Z) :
  pack_text h text = Ok (f, n) ->
  n = len text /\ _pack h (len text) text = Ok f.
Proof.
  unfold pack_text. intros H. apply bind_Ok in H as (f' & Hp & H).
  injection H as <- <-. now split.
Qed.

(** What [_pack] wrote is what [_unpack] reads, whatever follows. *)
Lemma unpack_pack (h : handler) (value rest f : str) :
  _pack h (len value) value = Ok f ->
  _unpack (f ++ rest) =
  Ok (value, len value, len (str_of_Z (len value)) + 2).
Proof.
  intros H. apply pack_Ok in H as [-> Hint].
  cbn [app]. rewrite <- app_assoc. cbn [app].
  rewrite unpack_framed with (n := len value).
  - now rewrite firstn_len_app.
  - apply str_of_Z_no_delimiter.
  - exact Hint.
  - apply len_nonneg.
Qed.

Lemma unpack_bounds (raw value : str) (length offset : Z) :
  _unpack raw = Ok (value, length, offset) ->
  3 <= offset /\
  ((List.length value + 3 <= List.length raw)%nat \/ value = []).
Proof.
  unfold _unpack. destruct raw as [|t r]; [discriminate|].
  cbn [get_tag bind]. rewrite py_slice_from_tail.
  intros H. apply bind_Ok in H as (n & Hint & H).
  injection H as Hv Hl Ho.
  assert (Hls : 1 <= len (split_head delimiter r)).
  { destruct (split_head delimiter r) as [|c l].
    - rewrite py_int_nil in Hint. discriminate.
    - rewrite len_cons. pose proof (len_nonneg l). lia. }
  split; [lia|].
  destruct (Z.le_gt_cases (len (t :: r)) offset) as [Hbig|Hsmall].
  - right. rewrite <- Hv. apply py_slice_beyond. lia.
  - left. rewrite <- Hv.
    pose proof (py_slice_length (t :: r)
                  (len (split_head delimiter r) + 1 + 1)
                  (len (split_head delimiter r) + 1 + 1 + n)) as Hlen.
    rewrite slice_index_inside in Hlen by lia.
    unfold len in *. lia.
Qed.

Lemma decode_fuel_Ok (fuel : nat) (h : handler) (raw : str) v n :
  decode_fuel fuel h raw = Ok (v, n) ->
  exists value length offset,
    _unpack raw = Ok (value, length, offset) /\ n = len value + offset.
Proof.
  destruct fuel as [|fuel]; [discriminate|].
  cbn [decode_fuel]. intros H.
  apply bind_Ok in H as ([[value length] offset] & Hu & H).
  exists value, length, offset. split; [assumption|].
  destruct h;
    repeat match type of H with
           | bind _ _ = Ok _ => apply bind_Ok in H as (? & _ & H)
           end;
    now injection H.
Qed.

Lemma decode_fuel_consumed (fuel : nat) (h : handler) (raw : str) v n :
  decode_fuel fuel h raw = Ok (v, n) -> 3 <= n.
Proof.
  intros H. apply decode_fuel_Ok in H as (value & length & offset & Hu & ->).
  apply unpack_bounds in Hu as [Ho _].
  pose proof (len_nonneg value). lia.
Qed.

End Framing.

(** ** The exceptions of the primitive operations *)

Lemma of_option_error {A : Type} (o : option A) (e : exn) :
  of_option o = Raise e -> e = ValueError.
Proof. destruct o; cbn; congruence. Qed.

Lemma get_by_raw_data_error (raw : str) (e : exn) :
  get_by_raw_data raw = Raise e -> e = IndexError \/ e = KeyError.
Proof.
  unfold get_by_raw_data. destruct raw as [|t r]; cbn [get_tag bind].
  - intros [= <-]. now left.
  - destruct (lookup_tag _tag_2_handler t); [discriminate|].
    intros [= <-]. now right.
Qed.

Lemma py_set_from_error (items acc : list pyvalue) (e : exn) :
  py_set_from acc items = Raise e -> e = TypeError.
Proof.
  revert acc. induction items as [|x items IH]; intros acc; cbn.
  - discriminate.
  - destruct (hashable x); [apply IH | congruence].
Qed.

Lemma py_dict_from_error (pairs : list pyvalue) acc (e : exn) :
  py_dict_from acc pairs = Raise e -> e = TypeError \/ e = ValueError.
Proof.
  revert acc. induction pairs as [|p pairs IH]; intros acc; cbn.
  - discriminate.
  - destruct p as [| | | | | | |l| |]; try (intros [= <-]; now left).
    destruct l as [|k [|v [|w l]]]; try (intros [= <-]; now right).
    destruct (hashable k); [apply IH | intros [= <-]; now left].
Qed.

Section Exceptions.

Context {builtins : Builtins}.

Lemma py_int_error (s : str) (e : exn) :
  py_int s = Raise e -> e = ValueError.
Proof.
  unfold py_int, int_of_ascii.
  repeat match goal with
         | |- context [match ?x with _ => _ end] => destruct x
         end;
    congruence.
Qed.

Lemma unpack_error (raw : str) (e : exn) :
  _unpack raw = Raise e -> e = IndexError \/ e = ValueError.
Proof.
  unfold _unpack. destruct raw as [|t r]; cbn [get_tag bind].
  - intros [= <-]. now left.
  - destruct (py_int _) eqn:Hint; cbn [bind]; [discriminate|].
    intros [= <-]. right. exact (py_int_error _ _ Hint).
Qed.

End Exceptions.

(** ** Fuel: a decoding never runs out of it *)

Lemma py_slice_from_length (s : str) (offset : Z) :
  0 <= offset <= len s -> len (py_slice_from s offset) = len s - offset.
Proof.
  intros H. unfold py_slice_from. rewrite slice_index_inside by assumption.
  unfold len in *. rewrite length_skipn. lia.
Qed.

Section Fuel.

Context {builtins : Builtins}.

Ltac same_fuel IH H :=
  rewrite IH;
  [ | let E := fresh in
      intros E; rewrite E in H; cbn [bind] in H; congruence ].

(** More fuel does not change a result. *)
Lemma decode_fuel_mono (fuel : nat) :
  forall fuel', (fuel <= fuel')%nat ->
    (forall h raw,
        decode_fuel fuel h raw <> Raise OutOfFuel ->
        decode_fuel fuel' h raw = decode_fuel fuel h raw) /\
    (forall value offset items,
        decode_items fuel value offset items <> Raise OutOfFuel ->
        decode_items fuel' value offset items =
        decode_items fuel value offset items) /\
    (forall value offset pairs,
        decode_pairs fuel value offset pairs <> Raise OutOfFuel ->
        decode_pairs fuel' value offset pairs =
        decode_pairs fuel value offset pairs).
Proof.
  induction fuel as [|fuel IH]; intros fuel' Hle.
  - repeat split; intros; cbn in *; congruence.
  - destruct fuel' as [|fuel']; [lia|].
    destruct (IH fuel' ltac:(lia)) as (IHd & IHi & IHp).
    repeat split.
    + intros h raw H. cbn [decode_fuel] in *.
      destruct (_unpack raw) as [[[value length] offset]|e];
        cbn [bind] in *; [|reflexivity].
      destruct h; try reflexivity.
      * same_fuel IHi H. reflexivity.
      * same_fuel IHi H. reflexivity.
      * same_fuel IHi H. reflexivity.
      * same_fuel IHp H. reflexivity.
    + intros value offset items H. cbn [decode_items] in *.
      destruct (offset <? len value); [|reflexivity].
      destruct (get_by_raw_data _) as [hh|e]; cbn [bind] in *; [|reflexivity].
      same_fuel IHd H.
      destruct (decode_fuel fuel hh _) as [[item n]|e];
        cbn [bind] in *; [|reflexivity].
      now apply IHi.
    + intros value offset pairs H. cbn [decode_pairs] in *.
      destruct (offset <? len value); [|reflexivity].
      same_fuel IHd H.
      destruct (decode_fuel fuel TupleHandler _) as [[item n]|e];
        cbn [bind] in *; [|reflexivity].
      now apply IHp.
Qed.

Ltac not_fuel E :=
  let H := fresh in
  intros H; injection H as H; subst;
  first
    [ apply py_int_error in E; discriminate E
    | apply of_option_error in E; discriminate E
    | apply py_set_from_error in E; discriminate E
    | apply unpack_error in E; destruct E; discriminate
    | apply get_by_raw_data_error in E; destruct E; discriminate
    | apply py_dict_from_error in E; destruct E; discriminate ].

(** A text of [n] characters needs at most [n + 1] units; a loop over
    [r] remaining characters at most [r + 2]. *)
Lemma decode_fuel_adequate (fuel : nat) :
  (forall h raw,
      (length raw < fuel)%nat ->
      decode_fuel fuel h raw <> Raise OutOfFuel) /\
  (forall value offset items,
      0 <= offset -> (1 <= fuel)%nat ->
      (offset < len value -> len value - offset + 2 <= Z.of_nat fuel) ->
      decode_items fuel value offset items <> Raise OutOfFuel) /\
  (forall value offset pairs,
      0 <= offset -> (1 <= fuel)%nat ->
      (offset < len value -> len value - offset + 2 <= Z.of_nat fuel) ->
      decode_pairs fuel value offset pairs <> Raise OutOfFuel).
Proof.
  induction fuel as [|fuel (IHd & IHi & IHp)].
  - repeat split; intros; lia.
  - assert (Hloop : forall value raw length offset,
               _unpack raw = Ok (value, length, offset) ->
               (List.length raw < S fuel)%nat ->
               (1 <= fuel)%nat /\
               (0 < len value -> len value - 0 + 2 <= Z.of_nat fuel)).
    { intros value raw length offset Hu Hlen.
      destruct (unpack_bounds _ _ _ _ Hu) as [_ [Hv|Hv]].
      - unfold len. lia.
      - subst value. destruct raw; [discriminate Hu|]. cbn in Hlen.
        split; [lia|]. rewrite len_nil. lia. }
    repeat split.
    + intros h raw Hlen. cbn [decode_fuel].
      destruct (_unpack raw) as [[[value length] offset]|e] eqn:Hu;
        cbn [bind]; [|not_fuel Hu].
      destruct (Hloop _ _ _ _ Hu Hlen) as [H1 H2].
      destruct h; try discriminate.
      * destruct (py_int value) eqn:E; cbn [bind]; [discriminate|].
        not_fuel E.
      * destruct (of_option _) eqn:E; cbn [bind]; [discriminate|].
        not_fuel E.
      * destruct (py_int value) eqn:E; cbn [bind]; [discriminate|].
        not_fuel E.
      * destruct (of_option _) eqn:E; cbn [bind]; [discriminate|].
        not_fuel E.
      * destruct (decode_items fuel value 0 []) eqn:E; cbn [bind];
          [discriminate|].
        intros [= ->]. revert E. apply IHi; [lia | assumption | assumption].
      * destruct (decode_items fuel value 0 []) eqn:E; cbn [bind];
          [discriminate|].
        intros [= ->]. revert E. apply IHi; [lia | assumption | assumption].
      * destruct (decode_items fuel value 0 []) eqn:E; cbn [bind].
        -- unfold py_set. destruct (py_set_from [] a) eqn:E'; cbn [bind];
             [discriminate|]. not_fuel E'.
        -- intros [= ->]. revert E.
           apply IHi; [lia | assumption | assumption].
      * destruct (decode_pairs fuel value 0 []) eqn:E; cbn [bind].
        -- unfold py_dict. destruct (py_dict_from [] a) eqn:E'; cbn [bind];
             [discriminate|]. not_fuel E'.
        -- intros [= ->]. revert E.
           apply IHp; [lia | assumption | assumption].
    + intros value offset items Ho _ Hf. cbn [decode_items].
      destruct (Z.ltb_spec offset (len value)) as [Hlt|Hge]; [|discriminate].
      specialize (Hf Hlt).
      pose proof (py_slice_from_length value offset ltac:(lia)) as Hlen.
      destruct (get_by_raw_data _) as [hh|e] eqn:Hh; cbn [bind];
        [|not_fuel Hh].
      destruct (decode_fuel fuel hh _) as [[item n]|e] eqn:Hd; cbn [bind].
      * apply decode_fuel_consumed in Hd.
        apply IHi; try lia.
      * intros [= ->]. revert Hd. apply IHd. unfold len in *. lia.
    + intros value offset pairs Ho _ Hf. cbn [decode_pairs].
      destruct (Z.ltb_spec offset (len value)) as [Hlt|Hge]; [|discriminate].
      specialize (Hf Hlt).
      pose proof (py_slice_from_length value offset ltac:(lia)) as Hlen.
      destruct (decode_fuel fuel TupleHandler _) as [[item n]|e] eqn:Hd;
        cbn [bind].
      * apply decode_fuel_consumed in Hd.
        apply IHp; try lia.
      * intros [= ->]. revert Hd. apply IHd. unfold len in *. lia.
Qed.

(** [decode] gives the result of every sufficient amount of fuel, and
    that result is not an exhaustion. *)
Lemma decode_fuel_enough (h : handler) (raw : str) (fuel : nat) :
  (length raw < fuel)%nat ->
  decode_fuel fuel h raw = decode h raw /\ decode h raw <> Raise OutOfFuel.
Proof.
  intros Hlen. unfold decode.
  assert (Hok : decode_fuel (S (length raw)) h raw <> Raise OutOfFuel).
  { apply decode_fuel_adequate. lia. }
  split; [|assumption].
  now apply (decode_fuel_mono (S (length raw)) fuel).
Qed.

End Fuel.

(** ** Sets and dictionaries of distinct members *)



(** ** The registry *)

(** Loading the module registers the ten handlers without an error,
    and registering any of them once more raises. *)
Lemma registration_succeeds : register_all registered = Ok _tag_2_handler.
Proof. reflexivity. Qed.

Lemma register_twice (h : handler) :
  register _tag_2_handler h = Raise KeyError.
Proof. destruct h; reflexivity. Qed.

(** ** Decoding what was encoded *)

Lemma lookup_tag_registered (h : handler) :
  lookup_tag _tag_2_handler (tag h) = Some h.
Proof. destruct h; reflexivity. Qed.

Lemma int_str_Ok (z : Z) (text : str) :
  int_str z = Ok text ->
  text = str_of_Z z /\ too_many_digits (decimal_digits z) = false.
Proof.
  unfold int_str. destruct (too_many_digits _); [discriminate|].
  intros [= <-]. now split.
Qed.

Lemma pack_shape (h : handler) (n : Z) (value f : str) :
  _pack h n value = Ok f -> f = tag h :: str_of_Z n ++ delimiter :: value.
Proof.
  unfold _pack. intros H. apply bind_Ok in H as (length_str & Hs & H).
  apply int_str_Ok in Hs as [-> _]. now injection H as <-.
Qed.

Lemma len_pack (h : handler) (n : Z) (text f : str) :
  _pack h n text = Ok f -> len f = len (str_of_Z n) + 2 + len text.
Proof.
  intros H. apply pack_shape in H as ->.
  rewrite len_cons, len_app, len_cons. lia.
Qed.

Lemma str_of_Z_length (z : Z) : 1 <= len (str_of_Z z).
Proof.
  pose proof (str_of_Z_not_nil z) as Hne.
  destruct (str_of_Z z) as [|c s]; [congruence|].
  rewrite len_cons. pose proof (len_nonneg s). lia.
Qed.

Lemma packed_length (h : handler) (text f : str) :
  _pack h (len text) text = Ok f -> (length text + 3 <= length f)%nat.
Proof.
  intros H. apply len_pack in H.
  pose proof (str_of_Z_length (len text)). unfold len in *. lia.
Qed.

Lemma packed_fuel (h : handler) (text f : str) (n : Z) (fuel : nat) :
  pack_text h text = Ok (f, n) ->
  (length f < S fuel)%nat ->
  (length text + 2 <= fuel)%nat.
Proof.
  intros H Hfuel. apply pack_text_Ok in H as [_ H].
  apply packed_length in H. lia.
Qed.

Lemma consumed_packed (h : handler) (text f : str) (n : Z) :
  pack_text h text = Ok (f, n) ->
  len f = len text + (len (str_of_Z (len text)) + 2).
Proof.
  intros H. apply pack_text_Ok in H as [_ H]. apply len_pack in H. lia.
Qed.

(** A text of fewer than [10 ^ 4300] characters is packed. *)
Lemma pack_small (h : handler) (text : str) :
  len text < length_limit ->
  _pack h (len text) text =
  Ok (tag h :: str_of_Z (len text) ++ delimiter :: text).
Proof.
  intros Hn. unfold _pack.
  rewrite int_str_small by (pose proof (len_nonneg text); lia).
  reflexivity.
Qed.

(** *** Joined texts *)

Lemma join_map_ext {A : Type} (f g : A -> result str) (l : list A) :
  (forall x, In x l -> f x = g x) -> join_map f l = join_map g l.
Proof.
  induction l as [|x l IH]; intros H; cbn [join_map]; [reflexivity|].
  rewrite (H x) by now left.
  rewrite IH; [reflexivity|]. intros y Hy. apply H. now right.
Qed.

Lemma join_map_Ok {A : Type} (f : A -> result str) (l : list A) (text : str) :
  join_map f l = Ok text ->
  exists frags, Forall2 (fun x s => f x = Ok s) l frags /\ text = concat frags.
Proof.
  revert text. induction l as [|x l IH]; intros text; cbn [join_map].
  - intros [= <-]. exists []. split; [constructor | reflexivity].
  - intros H. apply bind_Ok in H as (s & Hs & H).
    apply bind_Ok in H as (r & Hr & H). injection H as <-.
    destruct (IH r Hr) as (frags & HF & ->).
    exists (s :: frags). split; [now constructor | reflexivity].
Qed.

Lemma join_map_cons {A : Type} (f : A -> result str) (x : A) (l : list A)
  (text : str) :
  join_map f (x :: l) = Ok text ->
  exists s r, f x = Ok s /\ join_map f l = Ok r /\ text = s ++ r.
Proof.
  cbn [join_map]. intros H. apply bind_Ok in H as (s & Hs & H).
  apply bind_Ok in H as (r & Hr & H). injection H as <-. eauto.
Qed.

(** *** Sets and dictionaries of hashable members *)

Lemma py_set_from_hashable (l acc : list pyvalue) :
  forallb hashable l = true ->
  py_set_from acc l = Ok (fold_left (fun acc x => set_add x acc) l acc).
Proof.
  revert acc. induction l as [|x l IH]; intros acc Hh; cbn; [reflexivity|].
  cbn in Hh. apply andb_prop in Hh as [-> Hh]. now apply IH.
Qed.

Lemma py_dict_from_hashable (l acc : list (pyvalue * pyvalue)) :
  forallb (fun kv => hashable (fst kv)) l = true ->
  py_dict_from acc (map as_tuple l) =
  Ok (fold_left (fun acc kv => dict_set (fst kv) (snd kv) acc) l acc).
Proof.
  revert acc. induction l as [|[k v] l IH]; intros acc Hh; cbn;
    [reflexivity|].
  cbn in Hh. apply andb_prop in Hh as [-> Hh]. now apply IH.
Qed.



Section RoundTrip.

Context {builtins : Builtins} {contracts : BuiltinContracts builtins}.

(** *** The equations of [encode] on the collections *)

Lemma dumps_Ok (v : pyvalue) (f : str) :
  dumps v = Ok f <-> exists n, encode v = Ok (f, n).
Proof.
  unfold dumps. split.
  - intros H. apply bind_Ok in H as ([f' n] & He & H).
    injection H as <-. now exists n.
  - intros [n ->]. reflexivity.
Qed.

Lemma encode_list (l : list pyvalue) :
  encode (VList l) =
  (data_str <- join_map dumps l ;; pack_text ListHandler data_str).
Proof. reflexivity. Qed.

Lemma encode_tuple (l : list pyvalue) :
  encode (VTuple l) =
  (data_str <- join_map dumps l ;; pack_text TupleHandler data_str).
Proof. reflexivity. Qed.

Lemma encode_set (l : list pyvalue) :
  encode (VSet l) =
  (data_str <- join_map dumps l ;; pack_text SetHandler data_str).
Proof. reflexivity. Qed.

Lemma dumps_tuple (l : list pyvalue) :
  dumps (VTuple l) =
  (pair_str <- join_map dumps l ;;
   '(fragment, _) <- pack_text TupleHandler pair_str ;;
   Ok fragment).
Proof.
  unfold dumps at 1. rewrite encode_tuple.
  now destruct (join_map dumps l).
Qed.

Lemma encode_dict (l : list (pyvalue * pyvalue)) :
  encode (VDict l) =
  (data_str <- join_map (fun kv => dumps (VTuple [fst kv; snd kv])) l ;;
   pack_text DictionaryHandler data_str).
Proof.
  cbn [encode]. f_equal. apply join_map_ext.
  intros kv _. now rewrite dumps_tuple.
Qed.

Lemma encode_shape (v : pyvalue) (f : str) (n : Z) :
  encode v = Ok (f, n) ->
  exists text, pack_text (get_by_data v) text = Ok (f, n).
Proof.
  destruct v; cbn [encode get_by_data]; intros H;
    first [ eexists; exact H
          | apply bind_Ok in H as (x & _ & H); eexists; exact H ].
Qed.

Lemma get_by_raw_data_encoded (v : pyvalue) (f rest : str) (n : Z) :
  encode v = Ok (f, n) ->
  get_by_raw_data (f ++ rest) = Ok (get_by_data v).
Proof.
  intros H. apply encode_shape in H as [text H].
  apply pack_text_Ok in H as [_ H]. apply pack_shape in H as ->.
  unfold get_by_raw_data. cbn [app get_tag bind].
  now rewrite lookup_tag_registered.
Qed.

Lemma encoded_length (v : pyvalue) (f : str) (n : Z) :
  encode v = Ok (f, n) -> 3 <= len f.
Proof.
  intros H. apply encode_shape in H as [text H].
  apply consumed_packed in H. rewrite H.
  pose proof (len_nonneg text). pose proof (str_of_Z_length (len text)). lia.
Qed.

Lemma dumps_length (v : pyvalue) (f : str) : dumps v = Ok f -> 3 <= len f.
Proof.
  intros H. apply dumps_Ok in H as [n H]. exact (encoded_length _ _ _ H).
Qed.

(** *** The decoded value *)

Lemma decoded_value_hashable (v : pyvalue) :
  hashable (decoded_value v) = hashable v.
Proof.
  induction v using pyvalue_ind; cbn [decoded_value hashable];
    try reflexivity.
  induction H as [|x l Hx _ IH]; cbn; [reflexivity|]. now rewrite Hx, IH.
Qed.

Lemma decoded_members_hashable (l : list pyvalue) :
  forallb hashable (map decoded_value l) = forallb hashable l.
Proof.
  induction l as [|x l IH]; cbn; [reflexivity|].
  now rewrite decoded_value_hashable, IH.
Qed.

(** The loop of [GenericCollectionHandler.decode] over the encoded
    members [l], entered after the prefix [pre] of the value. *)
Lemma decode_items_encoded (l : list pyvalue) :
  Forall roundtrips l ->
  forallb supported l = true ->
  forall text, join_map dumps l = Ok text ->
  forall fuel pre acc,
    (length text + 2 <= fuel)%nat ->
    decode_items fuel (pre ++ text) (len pre) acc =
    Ok (acc ++ map decoded_value l).
Proof.
  induction l as [|x l IH]; intros HF Hs text Ht fuel pre acc Hfuel;
    (destruct fuel as [|fuel]; [lia|]); cbn [decode_items map].
  - injection Ht as <-. rewrite !app_nil_r, Z.ltb_irrefl. reflexivity.
  - apply Forall_cons_iff in HF as [Hx HF].
    cbn in Hs. apply andb_prop in Hs as [Hsx Hs].
    apply join_map_cons in Ht as (fx & r & Hfx & Hr & ->).
    apply dumps_Ok in Hfx as [n Hfx].
    pose proof (encoded_length _ _ _ Hfx) as Hlen.
    rewrite length_app in Hfuel.
    assert (Hlt : len pre < len (pre ++ fx ++ r)).
    { rewrite !len_app. pose proof (len_nonneg r). lia. }
    apply Z.ltb_lt in Hlt. rewrite Hlt.
    rewrite py_slice_from_app, (get_by_raw_data_encoded _ _ _ _ Hfx).
    cbn [bind].
    rewrite (Hx Hsx fx n Hfx fuel r) by (unfold len in Hlen; lia).
    cbn [bind].
    rewrite app_assoc, <- len_app.
    rewrite (IH HF Hs r Hr fuel (pre ++ fx) (acc ++ [decoded_value x]))
      by (unfold len in Hlen; lia).
    now rewrite <- app_assoc.
Qed.

(** The loop of a collection's [decode] on the value of its own
    fragment gives the decoded members. *)
Lemma decode_items_packed (h : handler) (l : list pyvalue) (fuel : nat)
  (text f : str) (n : Z) :
  Forall roundtrips l ->
  forallb supported l = true ->
  join_map dumps l = Ok text ->
  pack_text h text = Ok (f, n) ->
  (length f < S fuel)%nat ->
  decode_items fuel text 0 [] = Ok (map decoded_value l).
Proof.
  intros HF Hs Ht Hp Hfuel.
  apply (decode_items_encoded l HF Hs text Ht fuel [] []).
  exact (packed_fuel h text f n fuel Hp Hfuel).
Qed.

Lemma decode_tuple_encoded (l : list pyvalue) :
  Forall roundtrips l -> roundtrips (VTuple l).
Proof.
  intros HF Hs f n He fuel rest Hfuel.
  destruct fuel as [|fuel]; [lia|].
  rewrite encode_tuple in He. apply bind_Ok in He as (text & Ht & Hp).
  cbn [get_by_data decode_fuel].
  destruct (pack_text_Ok _ _ _ _ Hp) as [_ Hpk].
  rewrite (unpack_pack _ _ rest _ Hpk). cbn [bind].
  rewrite (decode_items_packed TupleHandler l fuel text f n HF Hs Ht Hp Hfuel).
  cbn [bind decoded_value]. now rewrite (consumed_packed _ _ _ _ Hp).
Qed.

(** The loop of [DictionaryHandler.decode] over the encoded entries:
    it reads one tuple per entry, of the decoded key and the decoded
    value. *)
Lemma decode_pairs_encoded (l : list (pyvalue * pyvalue)) :
  Forall (fun kv => roundtrips (fst kv) /\ roundtrips (snd kv)) l ->
  forallb (fun kv => supported (fst kv) && supported (snd kv)) l = true ->
  forall text,
    join_map (fun kv => dumps (VTuple [fst kv; snd kv])) l = Ok text ->
    forall fuel pre acc,
      (length text + 2 <= fuel)%nat ->
      decode_pairs fuel (pre ++ text) (len pre) acc =
      Ok (acc ++
          map (fun kv => VTuple [decoded_value (fst kv);
                                 decoded_value (snd kv)]) l).
Proof.
  induction l as [|kv l IH]; intros HF Hs text Ht fuel pre acc Hfuel;
    (destruct fuel as [|fuel]; [lia|]); cbn [decode_pairs map].
  - injection Ht as <-. rewrite !app_nil_r, Z.ltb_irrefl. reflexivity.
  - apply Forall_cons_iff in HF as [[Hk Hv] HF].
    cbn in Hs. apply andb_prop in Hs as [Hsx Hs].
    apply andb_prop in Hsx as [Hsk Hsv].
    apply join_map_cons in Ht as (fx & r & Hfx & Hr & ->).
    apply dumps_Ok in Hfx as [n Hfx].
    assert (Hpair : roundtrips (VTuple [fst kv; snd kv])).
    { apply decode_tuple_encoded. repeat constructor; assumption. }
    assert (Hsp : supported (VTuple [fst kv; snd kv]) = true).
    { cbn. now rewrite Hsk, Hsv. }
    pose proof (encoded_length _ _ _ Hfx) as Hlen.
    rewrite length_app in Hfuel.
    assert (Hlt : len pre < len (pre ++ fx ++ r)).
    { rewrite !len_app. pose proof (len_nonneg r). lia. }
    apply Z.ltb_lt in Hlt. rewrite Hlt.
    rewrite py_slice_from_app.
    pose proof (Hpair Hsp fx n Hfx fuel r) as Hd.
    cbn [get_by_data decoded_value map] in Hd.
    rewrite Hd by (unfold len in Hlen; lia).
    cbn [bind].
    rewrite app_assoc, <- len_app.
    rewrite (IH HF Hs r Hr fuel (pre ++ fx)) by (unfold len in Hlen; lia).
    now rewrite <- app_assoc.
Qed.

(** Every supported value is decoded from its own fragment, whatever
    follows the fragment, to [decoded_value v], and the consumed
    length is the length of the fragment. *)
Lemma decode_encoded (v : pyvalue) : roundtrips v.
Proof.
  induction v using pyvalue_ind; try (now apply decode_tuple_encoded);
    intros Hs fr n He fuel rest Hfuel;
    (destruct fuel as [|fuel]; [lia|]);
    cbn [get_by_data decode_fuel decoded_value].
  - cbn [encode] in He.
    destruct (pack_text_Ok _ _ _ _ He) as [_ Hpk].
    rewrite (unpack_pack _ _ rest _ Hpk). cbn [bind].
    now rewrite (consumed_packed _ _ _ _ He).
  - cbn [encode] in He. apply bind_Ok in He as (text & Ht & He).
    apply py_int_int_str in Ht as [-> Hint].
    destruct (pack_text_Ok _ _ _ _ He) as [_ Hpk].
    rewrite (unpack_pack _ _ rest _ Hpk). cbn [bind].
    rewrite Hint. cbn [bind].
    rewrite (consumed_packed _ _ _ _ He). now destruct b.
  - cbn [encode] in He.
    destruct (pack_text_Ok _ _ _ _ He) as [_ Hpk].
    rewrite (unpack_pack _ _ rest _ Hpk). cbn [bind].
    now rewrite (consumed_packed _ _ _ _ He).
  - cbn [encode] in He. apply bind_Ok in He as (text & Ht & He).
    cbn in Hs. destruct (fromisoformat_isoformat _ Hs) as (text' & Hi & Hf).
    rewrite Hi in Ht. injection Ht as <-.
    destruct (pack_text_Ok _ _ _ _ He) as [_ Hpk].
    rewrite (unpack_pack _ _ rest _ Hpk). cbn [bind].
    rewrite Hf. cbn [of_option bind].
    now rewrite (consumed_packed _ _ _ _ He).
  - cbn [encode] in He. apply bind_Ok in He as (text & Ht & He).
    apply py_int_int_str in Ht as [-> Hint].
    destruct (pack_text_Ok _ _ _ _ He) as [_ Hpk].
    rewrite (unpack_pack _ _ rest _ Hpk). cbn [bind].
    rewrite Hint. cbn [bind].
    now rewrite (consumed_packed _ _ _ _ He).
  - cbn [encode] in He.
    destruct (pack_text_Ok _ _ _ _ He) as [_ Hpk].
    rewrite (unpack_pack _ _ rest _ Hpk). cbn [bind].
    cbn in Hs. rewrite (float_of_str_float_str _ Hs). cbn [of_option bind].
    now rewrite (consumed_packed _ _ _ _ He).
  - rewrite encode_list in He. apply bind_Ok in He as (text & Ht & Hp).
    destruct (pack_text_Ok _ _ _ _ Hp) as [_ Hpk].
    rewrite (unpack_pack _ _ rest _ Hpk). cbn [bind].
    cbn [supported] in Hs.
    rewrite (decode_items_packed ListHandler l fuel text fr n H Hs Ht Hp Hfuel).
    cbn [bind]. now rewrite (consumed_packed _ _ _ _ Hp).
  - rewrite encode_set in He. apply bind_Ok in He as (text & Ht & Hp).
    destruct (pack_text_Ok _ _ _ _ Hp) as [_ Hpk].
    rewrite (unpack_pack _ _ rest _ Hpk). cbn [bind].
    cbn [supported] in Hs.
    apply andb_prop in Hs as [Hs Hd]. apply andb_prop in Hs as [Hs Hh].
    rewrite (decode_items_packed SetHandler l fuel text fr n H Hs Ht Hp Hfuel).
    cbn [bind]. unfold py_set.
    rewrite py_set_from_hashable by now rewrite decoded_members_hashable.
    cbn [bind]. now rewrite (consumed_packed _ _ _ _ Hp).
  - rewrite encode_dict in He. apply bind_Ok in He as (text & Ht & Hp).
    destruct (pack_text_Ok _ _ _ _ Hp) as [_ Hpk].
    rewrite (unpack_pack _ _ rest _ Hpk). cbn [bind].
    cbn [supported] in Hs.
    apply andb_prop in Hs as [Hs Hd]. apply andb_prop in Hs as [Hs Hh].
    pose proof (decode_pairs_encoded l H Hs text Ht fuel [] []
                  (packed_fuel _ _ _ _ fuel Hp Hfuel)) as Hl.
    cbn [app] in Hl. change (len (@nil char)) with 0 in Hl.
    rewrite Hl. cbn [bind]. unfold py_dict.
    change (map (fun kv => VTuple [decoded_value (fst kv);
                                   decoded_value (snd kv)]) l)
      with (map (fun kv => as_tuple (decoded_value (fst kv),
                                     decoded_value (snd kv))) l).
    rewrite <- (map_map (fun kv => (decoded_value (fst kv),
                                    decoded_value (snd kv))) as_tuple).
    rewrite py_dict_from_hashable.
    + cbn [bind]. now rewrite (consumed_packed _ _ _ _ Hp).
    + clear - Hh. induction l as [|kv l IH]; cbn in *; [reflexivity|].
      apply andb_prop in Hh as [Hk Hh].
      now rewrite decoded_value_hashable, Hk, IH.
Qed.

End RoundTrip.
(** ** Python's [==] on a value and itself *)









(** ** Values that are the same up to the order of sets *)

Lemma pointwise_refl {A : Type} (R : A -> A -> Prop) (l : list A) :
  Forall (fun x => R x x) l -> pointwise R l l.
Proof. induction 1; cbn; auto. Qed.

Lemma same_refl (v : pyvalue) : same v v.
Proof.
  induction v using pyvalue_ind; cbn [same]; try reflexivity.
  - now apply pointwise_refl.
  - now apply pointwise_refl.
  - apply pointwise_refl. apply Forall_forall. intros kv Hin.
    rewrite Forall_forall in H. split; [reflexivity | now apply H].
Qed.

(** ** What the decoding keeps of a datetime *)

Lemma valid_decoded (d : datetime) :
  valid_datetime d = true -> valid_datetime (decoded d) = true.
Proof.
  destruct d as [t fold [[o|z o0 o1]|]]; unfold valid_datetime; cbn;
    try (intros H; exact H).
  intros H. apply andb_prop in H as [Ht H]. apply andb_prop in H as [H0 H1].
  rewrite Ht. destruct fold; [now rewrite H1 | now rewrite H0].
Qed.








Section DecodedValue.

Context {builtins : Builtins} {contracts : BuiltinContracts builtins}.











End DecodedValue.
(** ** The reference interpretation meets the contracts *)

Lemma str_eq_eq (s t : str) : str_eq s t = true -> s = t.
Proof.
  revert t. induction s as [|c s IH]; intros [|d t]; cbn; try discriminate.
  - reflexivity.
  - intros H. apply andb_prop in H as [Hc Hs].
    apply N.eqb_eq in Hc. subst d. f_equal. now apply IH.
Qed.

Lemma str_of_Z_chars (z : Z) : forallb int_char (str_of_Z z) = true.
Proof.
  assert (Hd : forall ds, forallb is_digit ds = true ->
                          forallb int_char ds = true).
  { intros ds H. rewrite forallb_forall in *. intros c Hc.
    unfold int_char. now rewrite (H c Hc). }
  unfold str_of_Z. destruct (Z.ltb_spec z 0).
  - cbn. apply Hd. apply str_of_nonneg_spec. lia.
  - apply Hd. now apply str_of_nonneg_spec.
Qed.

Lemma ref_int_str_of_Z (z : Z) : ref_int (str_of_Z z) = Some z.
Proof.
  unfold str_of_Z. destruct (Z.ltb_spec z 0) as [Hneg|Hpos].
  - destruct (str_of_nonneg_spec (- z)) as (Hne & Hall & Hval); [lia|].
    unfold ref_int. rewrite N.eqb_refl.
    destruct (str_of_nonneg (- z)) as [|c ds]; [congruence|].
    rewrite Hall, Hval. f_equal. lia.
  - destruct (str_of_nonneg_spec z Hpos) as (Hne & Hall & Hval).
    destruct (str_of_nonneg z) as [|c ds] eqn:E; [congruence|].
    unfold ref_int.
    assert (Hc : is_digit c = true) by (cbn in Hall; now apply andb_prop in Hall).
    rewrite (digit_neq c minus_sign Hc eq_refl), Hall, Hval. reflexivity.
Qed.

Lemma not_in_chars (p : char -> bool) (d : char) (s : str) :
  forallb p s = true -> p d = false -> ~ In d s.
Proof.
  intros Hall Hd Hin. rewrite forallb_forall in Hall.
  apply Hall in Hin. congruence.
Qed.

Lemma split_head_whole (d : char) (s : str) :
  ~ In d s -> split_head d s = s.
Proof.
  induction s as [|c s IH]; cbn; [reflexivity|].
  intros Hin. destruct (N.eqb_spec c d) as [->|Hne].
  - exfalso. apply Hin. now left.
  - f_equal. apply IH. intros H. apply Hin. now right.
Qed.

Lemma skipn_past (A : Type) (l : list A) (x : A) (r : list A) :
  skipn (S (length l)) (l ++ x :: r) = r.
Proof. induction l as [|y l IH]; [reflexivity | exact IH]. Qed.

Lemma ref_float_roundtrip (f : pyfloat) :
  valid_float f = true -> ref_float_of_str (ref_float_str f) = Some f.
Proof.
  intros _. destruct f as [[|]|[|]| |s m e]; try reflexivity.
  unfold ref_float_str, ref_float_of_str.
  set (sm := if s then Z.neg m else Z.pos m).
  set (text := str_of_Z sm ++ exponent_mark :: str_of_Z e).
  assert (Hc : forallb (fun c => int_char c || (c =? exponent_mark)%N) text
               = true).
  { unfold text. rewrite forallb_app. cbn [forallb].
    rewrite N.eqb_refl, orb_true_r. cbn [andb].
    assert (Hi : forall z, forallb (fun c => int_char c ||
                                             (c =? exponent_mark)%N)
                             (str_of_Z z) = true).
    { intros z. pose proof (str_of_Z_chars z) as Hz.
      rewrite forallb_forall in *. intros c Hin. now rewrite (Hz c Hin). }
    now rewrite !Hi. }
  assert (Hno : forall special,
             forallb (fun c => int_char c || (c =? exponent_mark)%N) special
             = false ->
             str_eq text special = false).
  { intros special Hsp. destruct (str_eq text special) eqn:E; [|reflexivity].
    apply str_eq_eq in E. congruence. }
  rewrite !Hno by reflexivity.
  unfold text.
  rewrite split_head_app
    by (apply (not_in_chars int_char); [apply str_of_Z_chars | reflexivity]).
  rewrite skipn_past, !ref_int_str_of_Z.
  unfold sm. now destruct s.
Qed.

Lemma utcoffset_decoded (d : datetime) : utcoffset (decoded d) = utcoffset d.
Proof. destruct d as [t fold [[o|z o0 o1]|]]; reflexivity. Qed.

Lemma ref_fromisoformat_text (t : Z) (offset : option Z) :
  ref_fromisoformat
    (str_of_Z t ++
     match offset with
     | None => []
     | Some o => offset_mark :: str_of_Z o
     end) =
  Some (mk_datetime t false (option_map (fun o => FixedOffset o) offset)).
Proof.
  destruct offset as [o|]; unfold ref_fromisoformat; cbn [option_map].
  - rewrite split_head_app
      by (apply (not_in_chars int_char); [apply str_of_Z_chars | reflexivity]).
    rewrite ref_int_str_of_Z, skipn_past, ref_int_str_of_Z.
    rewrite length_app. cbn [length].
    destruct (Nat.eqb_spec (length (str_of_Z t))
                (length (str_of_Z t) + S (length (str_of_Z o)))); [lia|].
    reflexivity.
  - rewrite app_nil_r.
    rewrite split_head_whole
      by (apply (not_in_chars int_char); [apply str_of_Z_chars | reflexivity]).
    now rewrite ref_int_str_of_Z, Nat.eqb_refl.
Qed.

Lemma ref_datetime_roundtrip (d : datetime) :
  valid_datetime d = true ->
  exists text,
    ref_isoformat d = Ok text /\ ref_fromisoformat text = Some (decoded d).
Proof.
  intros Hv. unfold ref_isoformat. rewrite Hv.
  eexists. split; [reflexivity|]. apply ref_fromisoformat_text.
Qed.

Lemma ref_isoformat_decoded (d : datetime) :
  valid_datetime d = true -> ref_isoformat (decoded d) = ref_isoformat d.
Proof.
  intros Hv. unfold ref_isoformat.
  rewrite (valid_decoded d Hv), Hv, utcoffset_decoded. reflexivity.
Qed.

Lemma reference_contracts : BuiltinContracts reference_builtins.
Proof.
  split.
  - exact ref_float_roundtrip.
  - exact ref_datetime_roundtrip.
  - exact ref_isoformat_decoded.
  - intros l. apply Permutation_refl.
Qed.

(** ** The entry points *)

Section EntryPoints.

Context {builtins : Builtins} {contracts : BuiltinContracts builtins}.

Lemma loads_decode_fragment (raw : str) :
  loads raw = ('(v, _) <- decode_fragment raw ;; Ok v).
Proof.
  unfold loads, decode_fragment.
  now destruct (get_by_raw_data raw).
Qed.

Lemma decode_fragment_dumps (v : pyvalue) (f rest : str) :
  supported v = true ->
  dumps v = Ok f ->
  decode_fragment (f ++ rest) = Ok (decoded_value v, len f).
Proof.
  intros Hs Hf. apply dumps_Ok in Hf as [n He].
  unfold decode_fragment.
  rewrite (get_by_raw_data_encoded _ _ _ _ He). cbn [bind]. unfold decode.
  apply (decode_encoded v Hs f n He). rewrite length_app. lia.
Qed.



Lemma dumps_well_formed (v : pyvalue) (f : str) :
  dumps v = Ok f -> well_formed f.
Proof.
  intros Hf. apply dumps_Ok in Hf as [n He].
  apply encode_shape in He as [text Hp].
  apply pack_text_Ok in Hp as [_ Hp]. apply pack_Ok in Hp as [-> Hint].
  exists (tag (get_by_data v)), (str_of_Z (len text)), text.
  repeat split.
  - apply str_of_Z_no_delimiter.
  - exact Hint.
Qed.

Lemma unpack_well_formed (t : char) (length_str payload rest : str) :
  ~ In delimiter length_str ->
  py_int length_str = Ok (len payload) ->
  _unpack ((t :: length_str ++ delimiter :: payload) ++ rest) =
  Ok (payload, len payload, len length_str + 2).
Proof.
  intros Hd Hint. cbn [app]. rewrite <- app_assoc. cbn [app].
  rewrite unpack_framed with (n := len payload);
    [|assumption|assumption|apply len_nonneg].
  now rewrite firstn_len_app.
Qed.

(** With the same fuel, what follows a well-formed fragment does not
    change the result of its [decode]. *)
Lemma decode_fuel_trailing (fuel : nat) (h : handler) (f s : str) :
  well_formed f -> decode_fuel fuel h (f ++ s) = decode_fuel fuel h f.
Proof.
  intros (t & length_str & payload & -> & Hd & Hint).
  destruct fuel as [|fuel]; [reflexivity|]. cbn [decode_fuel].
  rewrite (unpack_well_formed t length_str payload s Hd Hint).
  pose proof (unpack_well_formed t length_str payload [] Hd Hint) as Hu.
  rewrite app_nil_r in Hu. now rewrite Hu.
Qed.

Lemma decode_trailing (h : handler) (f s : str) :
  well_formed f -> decode h (f ++ s) = decode h f.
Proof.
  intros Hwf. unfold decode at 1. rewrite decode_fuel_trailing by assumption.
  apply decode_fuel_enough. rewrite length_app. lia.
Qed.

Lemma decode_fragment_trailing (f s : str) :
  well_formed f -> decode_fragment (f ++ s) = decode_fragment f.
Proof.
  intros Hwf. unfold decode_fragment.
  assert (Hh : get_by_raw_data (f ++ s) = get_by_raw_data f).
  { destruct Hwf as (t & length_str & payload & -> & _). reflexivity. }
  rewrite Hh. destruct (get_by_raw_data f) as [h|e]; [|reflexivity].
  cbn [bind]. now apply decode_trailing.
Qed.

End EntryPoints.

(** ** Texts that the decoder accepts *)

Section LooseFraming.

Context {builtins : Builtins}.

(** Without a delimiter the whole rest of the text is the length
    field, and the value is the empty slice past the end. *)
Lemma loads_without_delimiter : loads (lit "S5") = Ok (VStr []).
Proof. reflexivity. Qed.

(** [int] accepts a sign, and a slice that stops before it starts is
    empty. *)
Lemma loads_negative_length : loads (lit "S-1:abc") = Ok (VStr []).
Proof. reflexivity. Qed.

(** A negative length below the start of the value counts from the
    end of the text. *)
Lemma loads_length_from_end :
  loads (lit "S-9:abcdefghij") = Ok (VStr (lit "abcde")).
Proof. reflexivity. Qed.

(** A member that runs past the end of its collection is accepted. *)
Lemma loads_member_overrun : loads (lit "L2:S5") = Ok (VList [VStr []]).
Proof. reflexivity. Qed.

End LooseFraming.


(** ** The encoding of an integer and of a dictionary *)


Lemma length_limit_large : int_max_str_digits + 1 < length_limit.
Proof.
  unfold length_limit.
  assert (H : forall k, 0 <= k -> k + 5 < 10 ^ (k + 4)).
  { intros k Hk. pattern k. apply natlike_ind; [reflexivity| |assumption].
    intros x Hx IH. replace (Z.succ x + 4) with (Z.succ (x + 4)) by lia.
    rewrite Z.pow_succ_r by lia. lia. }
  exact (H 4296 ltac:(lia)).
Qed.

(** A text of no more characters than the limit has digits is
    short enough to be packed. *)
Lemma short_text {A : Type} (text : list A) :
  len text <= int_max_str_digits -> len text < length_limit.
Proof. pose proof length_limit_large. lia. Qed.

Section Encodings.

Context {builtins : Builtins}.


Lemma dumps_pair_Ok (k v : pyvalue) (f : str) :
  dumps (VTuple [k; v]) = Ok f ->
  exists fk fv,
    dumps k = Ok fk /\ dumps v = Ok fv /\
    f = tag TupleHandler :: str_of_Z (len (fk ++ fv)) ++
        delimiter :: fk ++ fv.
Proof.
  rewrite dumps_tuple. intros H.
  apply bind_Ok in H as (pair_str & Hj & H).
  apply join_map_cons in Hj as (fk & r & Hk & Hj & ->).
  apply join_map_cons in Hj as (fv & r' & Hv & Hj & ->).
  injection Hj as <-. rewrite app_nil_r in H.
  apply bind_Ok in H as ([f' n] & Hp & H). injection H as <-.
  apply pack_text_Ok in Hp as [_ Hp]. apply pack_shape in Hp.
  now exists fk, fv.
Qed.

Lemma dumps_pair_small (k v : pyvalue) (fk fv : str) :
  dumps k = Ok fk ->
  dumps v = Ok fv ->
  len (fk ++ fv) < length_limit ->
  dumps (VTuple [k; v]) =
  Ok (tag TupleHandler :: str_of_Z (len (fk ++ fv)) ++ delimiter :: fk ++ fv).
Proof.
  intros Hk Hv Hl. rewrite dumps_tuple. cbn [join_map].
  rewrite Hk, Hv. cbn [bind]. rewrite app_nil_r.
  unfold pack_text. now rewrite pack_small.
Qed.

End Encodings.

(* ================================================================= *)
(** * The claims of the specification *)

Section Claims.

Context {builtins : Builtins} {contracts : BuiltinContracts builtins}.



(** C3 (amended).  A text fragment whose declared length [n] exceeds
    the characters that follow the delimiter is decoded without an
    error: the value is all the characters that are there (the slice
    is cut at the end of the text and nothing is added), and the
    consumed length counts only those.  So [loads "S99:short"] returns
    the text [short]. *)
Theorem string_overrun_truncates (length_str body : str) (n : Z) :
  ~ In delimiter length_str ->
  py_int length_str = Ok n ->
  len body < n ->
  let raw := tag StringHandler :: length_str ++ delimiter :: body in
  loads raw = Ok (VStr body) /\
  decode_fragment raw = Ok (VStr body, len body + (len length_str + 2)).
Proof.
  intros Hd Hint Hn raw.
  assert (Hfrag : decode_fragment raw =
                  Ok (VStr body, len body + (len length_str + 2))).
  { unfold decode_fragment, raw, get_by_raw_data. cbn [get_tag bind].
    change (lookup_tag _tag_2_handler (tag StringHandler))
      with (Some StringHandler).
    cbv iota. unfold decode. cbn [decode_fuel].
    rewrite unpack_framed with (n := n);
      [|assumption|assumption|pose proof (len_nonneg body); lia].
    cbn [bind]. rewrite firstn_all2 by (unfold len in Hn; lia).
    reflexivity. }
  split; [|assumption].
  rewrite loads_decode_fragment, Hfrag. reflexivity.
Qed.

(** C4 (amended).  [loads] fails, and returns no value, on every text
    that is empty, or whose first character is no registered tag, or
    whose length field, the characters between the tag and the first
    delimiter or all the remaining ones when there is no delimiter, is
    rejected by [int].  It raises IndexError on the empty text,
    KeyError on an unregistered tag, and ValueError on a rejected
    length field after a registered tag. *)
Theorem loads_malformed_raises (raw : str) :
  malformed raw ->
  loads raw = Raise (malformed_error raw) /\
  (raw = [] -> loads raw = Raise IndexError) /\
  (forall t r, raw = t :: r -> lookup_tag _tag_2_handler t = None ->
               loads raw = Raise KeyError) /\
  (forall t r h, raw = t :: r -> lookup_tag _tag_2_handler t = Some h ->
                 loads raw = Raise ValueError).
Proof.
  intros Hm.
  assert (H : loads raw = Raise (malformed_error raw)).
  { unfold malformed, malformed_error, loads, get_by_raw_data in *.
    destruct raw as [|t r]; cbn [get_tag bind]; [reflexivity|].
    destruct (lookup_tag _tag_2_handler t) as [h|] eqn:Ht; [|reflexivity].
    destruct Hm as [Hm|[e He]]; [discriminate|].
    unfold decode. cbn [decode_fuel]. unfold _unpack. cbn [get_tag bind].
    rewrite py_slice_from_tail, He. cbn [bind].
    now rewrite (py_int_error _ _ He). }
  split; [exact H|]. rewrite H. repeat split.
  - now intros ->.
  - intros t r -> Ht. cbn [malformed_error]. now rewrite Ht.
  - intros t r h -> Ht. cbn [malformed_error]. now rewrite Ht.
Qed.

(** C5.  The examples of the specification: [dumps None] is [N0:],
    [dumps True] is [B1:1], [dumps [1, 2]] is [L8:I1:1I1:2], and
    [loads "L8:I1:1I1:2"] is the list [[1, 2]]. *)
Theorem spec_examples :
  dumps VNone = Ok (lit "N0:") /\
  dumps (VBool true) = Ok (lit "B1:1") /\
  dumps (VList [VInt 1; VInt 2]) = Ok (lit "L8:I1:1I1:2") /\
  loads (lit "L8:I1:1I1:2") = Ok (VList [VInt 1; VInt 2]).
Proof. repeat split; reflexivity. Qed.


(** C7.  The encoding of a dictionary is the character [d], the
    decimal length of its value, a colon, and its value; the value is
    the concatenation, in the order of the entries, of one fragment
    per entry; the fragment of the entry [(key, value)] is the
    encoding of the tuple [(key, value)]: the character [T], the
    decimal length of what follows the colon, a colon, the encoding of
    the key and the encoding of the value.  Every dictionary whose
    keys and values are encoded, to texts of fewer characters than the
    bound on lengths, is encoded so. *)
Theorem dictionary_encoding (l : list (pyvalue * pyvalue)) :
  let encoded := fun (kv : pyvalue * pyvalue) (ff : str * str) =>
    dumps (fst kv) = Ok (fst ff) /\ dumps (snd kv) = Ok (snd ff) in
  let pair_fragment := fun ff : str * str =>
    ch "T" :: str_of_Z (len (fst ff ++ snd ff)) ++ ch ":" :: fst ff ++ snd ff in
  let fragment := fun pairs : list (str * str) =>
    let value := concat (map pair_fragment pairs) in
    ch "d" :: str_of_Z (len value) ++ ch ":" :: value in
  (forall f, dumps (VDict l) = Ok f ->
     exists pairs,
       Forall2 encoded l pairs /\
       Forall2 (fun kv ff =>
                  dumps (VTuple [fst kv; snd kv]) = Ok (pair_fragment ff))
         l pairs /\
       f = fragment pairs) /\
  (forall pairs,
     Forall2 encoded l pairs ->
     Forall (fun ff => len (fst ff ++ snd ff) < length_limit) pairs ->
     len (concat (map pair_fragment pairs)) < length_limit ->
     dumps (VDict l) = Ok (fragment pairs)).
Proof.
  intros encoded pair_fragment fragment. split.
  - intros f Hf. apply dumps_Ok in Hf as [n He].
    rewrite encode_dict in He. apply bind_Ok in He as (text & Ht & Hp).
    apply pack_text_Ok in Hp as [_ Hp]. apply pack_shape in Hp.
    apply join_map_Ok in Ht as (frags & HF & ->).
    assert (Hpairs : exists pairs,
               Forall2 encoded l pairs /\
               Forall2 (fun kv ff =>
                          dumps (VTuple [fst kv; snd kv]) =
                          Ok (pair_fragment ff)) l pairs /\
               frags = map pair_fragment pairs).
    { clear Hp. induction HF as [|kv s l frags Hkv _ IH].
      - exists []. repeat split; constructor.
      - destruct IH as (pairs & H1 & H2 & ->).
        pose proof Hkv as Hkv'.
        apply dumps_pair_Ok in Hkv' as (fk & fv & Hk & Hv & Hs).
        exists ((fk, fv) :: pairs). repeat split.
        + constructor; [now split | assumption].
        + constructor; [|assumption]. rewrite Hkv, Hs. reflexivity.
        + cbn [map]. now rewrite Hs. }
    destruct Hpairs as (pairs & H1 & H2 & ->).
    exists pairs. repeat split; assumption.
  - intros pairs HF Hsmall Hl. unfold dumps. rewrite encode_dict.
    assert (Hj : join_map (fun kv => dumps (VTuple [fst kv; snd kv])) l =
                 Ok (concat (map pair_fragment pairs))).
    { clear Hl. induction HF as [|kv ff l pairs [Hk Hv] _ IH];
        cbn [join_map map concat]; [reflexivity|].
      apply Forall_cons_iff in Hsmall as [Hkv Hsmall].
      rewrite (dumps_pair_small _ _ _ _ Hk Hv Hkv). cbn [bind].
      now rewrite (IH Hsmall). }
    rewrite Hj. cbn [bind]. unfold pack_text.
    now rewrite pack_small.
Qed.

(** C8.  Text after a well-formed fragment is ignored: when [loads]
    returns a value on a fragment whose declared length is the length
    of its payload, it returns the same value on that fragment
    followed by any text.  (Every encoding is such a fragment, see
    [dumps_well_formed] and [loads_dumps].) *)
Theorem trailing_text_ignored (f s : str) (v : pyvalue) :
  well_formed f ->
  loads f = Ok v ->
  loads (f ++ s) = Ok v.
Proof.
  intros Hwf Hv. rewrite loads_decode_fragment in *.
  now rewrite decode_fragment_trailing.
Qed.

(** C9.  A boolean fragment is decoded for every payload that [int]
    accepts, not only for [0] and [1]: the result is [True] exactly
    when the integer is not zero.  The fragment is the one that
    [_pack] writes for the payload, that is the character [B], the
    decimal length of the payload, a colon and the payload, for every
    payload of a length that the interpreter writes in decimal. *)
Theorem boolean_payload_any_integer (payload : str) (n : Z) :
  py_int payload = Ok n ->
  (forall f, _pack BooleanHandler (len payload) payload = Ok f ->
     loads f = Ok (VBool (negb (n =? 0)))) /\
  (len payload < length_limit ->
   loads (ch "B" :: str_of_Z (len payload) ++ ch ":" :: payload) =
   Ok (VBool (negb (n =? 0)))).
Proof.
  intros Hint.
  assert (H : forall f, _pack BooleanHandler (len payload) payload = Ok f ->
                        loads f = Ok (VBool (negb (n =? 0)))).
  { intros f Hp.
    pose proof (unpack_pack _ _ [] _ Hp) as Hu. rewrite app_nil_r in Hu.
    apply pack_shape in Hp. subst f.
    unfold loads, get_by_raw_data. cbn [get_tag bind].
    change (lookup_tag _tag_2_handler (tag BooleanHandler))
      with (Some BooleanHandler).
    cbv iota. unfold decode. cbn [decode_fuel].
    rewrite Hu. cbn [bind]. rewrite Hint. reflexivity. }
  split; [exact H|].
  intros Hl. apply H. exact (pack_small BooleanHandler payload Hl).
Qed.

(** C10.  An absence-of-value fragment with a declared length [n >= 0]
    and at least [n] characters after the delimiter is decoded to
    [None], whatever the length and the characters are: when the
    length is written in plain decimal, as the encoder writes it, and
    however else it is written as long as [int] reads it. *)
Theorem none_ignores_payload (n : Z) (payload : str) :
  0 <= n ->
  n <= len payload ->
  (n < length_limit ->
   loads (ch "N" :: str_of_Z n ++ ch ":" :: payload) = Ok VNone) /\
  (forall length_str,
     ~ In delimiter length_str ->
     py_int length_str = Ok n ->
     loads (ch "N" :: length_str ++ ch ":" :: payload) = Ok VNone).
Proof.
  intros Hn _.
  assert (H : forall length_str,
             ~ In delimiter length_str ->
             py_int length_str = Ok n ->
             loads (ch "N" :: length_str ++ ch ":" :: payload) = Ok VNone).
  { intros length_str Hd Hint.
    change (ch "N") with (tag NoneHandler). change (ch ":") with delimiter.
    unfold loads, get_by_raw_data. cbn [get_tag bind].
    change (lookup_tag _tag_2_handler (tag NoneHandler))
      with (Some NoneHandler).
    cbv iota. unfold decode. cbn [decode_fuel].
    rewrite unpack_framed with (n := n); [|assumption|assumption|assumption].
    reflexivity. }
  split; [|exact H].
  intros Hl. apply H; [apply str_of_Z_no_delimiter|].
  apply py_int_int_str with (z := n). apply int_str_small. lia.
Qed.

End Claims.


(* ================================================================= *)
(** * Further properties of the codec *)

(** ** The encoding tells values apart *)

Lemma str_of_Z_inj (z1 z2 : Z) : str_of_Z z1 = str_of_Z z2 -> z1 = z2.
Proof.
  intros H. pose proof (ref_int_str_of_Z z1) as H1.
  rewrite H, ref_int_str_of_Z in H1. now injection H1.
Qed.

(** Two framed texts that are equal have the same tag, the same
    length text and the same value. *)
Lemma framed_inj (t1 t2 : char) (ls1 ls2 p1 p2 : str) :
  ~ In delimiter ls1 ->
  ~ In delimiter ls2 ->
  t1 :: ls1 ++ delimiter :: p1 = t2 :: ls2 ++ delimiter :: p2 ->
  t1 = t2 /\ ls1 = ls2 /\ p1 = p2.
Proof.
  intros H1 H2 H. injection H as Ht H.
  assert (Hl : ls1 = ls2).
  { rewrite <- (split_head_app delimiter ls1 p1 H1).
    rewrite <- (split_head_app delimiter ls2 p2 H2). now rewrite H. }
  subst ls2. apply app_inv_head in H. injection H as H. auto.
Qed.

Lemma tag_injective (h1 h2 : handler) : tag h1 = tag h2 -> h1 = h2.
Proof. destruct h1, h2; intros H; try reflexivity; discriminate H. Qed.

Lemma packed_inj (h1 h2 : handler) (text1 text2 f : str) (n1 n2 : Z) :
  pack_text h1 text1 = Ok (f, n1) ->
  pack_text h2 text2 = Ok (f, n2) ->
  h1 = h2 /\ text1 = text2.
Proof.
  intros H1 H2.
  apply pack_text_Ok in H1 as [_ H1]. apply pack_shape in H1.
  apply pack_text_Ok in H2 as [_ H2]. apply pack_shape in H2.
  rewrite H1 in H2.
  apply framed_inj in H2 as (Ht & _ & Hp);
    try apply str_of_Z_no_delimiter.
  split; [now apply tag_injective | assumption].
Qed.

Section Injective.

Context {builtins : Builtins} {contracts : BuiltinContracts builtins}.

(** The encodings are prefix-free: an encoding ends where its
    declared length says, so it cannot go on as another encoding. *)
Lemma dumps_prefix (v1 v2 : pyvalue) (f1 f2 r1 r2 : str) :
  supported v1 = true ->
  supported v2 = true ->
  dumps v1 = Ok f1 ->
  dumps v2 = Ok f2 ->
  f1 ++ r1 = f2 ++ r2 ->
  f1 = f2 /\ r1 = r2.
Proof.
  intros Hs1 Hs2 H1 H2 Heq.
  pose proof (decode_fragment_dumps v1 f1 r1 Hs1 H1) as Hd1.
  pose proof (decode_fragment_dumps v2 f2 r2 Hs2 H2) as Hd2.
  rewrite Heq, Hd2 in Hd1. injection Hd1 as _ Hlen.
  assert (Hf : f1 = f2).
  { rewrite <- (firstn_len_app f1 r1), <- (firstn_len_app f2 r2).
    now rewrite Heq, Hlen. }
  split; [assumption|]. subst f2. now apply app_inv_head in Heq.
Qed.

Lemma members_told_apart (l1 : list pyvalue) :
  Forall told_apart l1 ->
  forallb supported l1 = true ->
  forall l2 text,
    forallb supported l2 = true ->
    join_map dumps l1 = Ok text ->
    join_map dumps l2 = Ok text ->
    map normal_time l1 = map normal_time l2.
Proof.
  induction 1 as [|x l1 Hx _ IH]; intros Hs1 [|y l2] text Hs2 H1 H2.
  - reflexivity.
  - exfalso. injection H1 as <-.
    apply join_map_cons in H2 as (fy & r & Hy & _ & Ht).
    apply dumps_length in Hy. destruct fy; [cbn in Hy; lia | discriminate].
  - exfalso. injection H2 as <-.
    apply join_map_cons in H1 as (fx & r & Hfx & _ & Ht).
    apply dumps_length in Hfx. destruct fx; [cbn in Hfx; lia | discriminate].
  - cbn in Hs1, Hs2.
    apply andb_prop in Hs1 as [Hsx Hs1]. apply andb_prop in Hs2 as [Hsy Hs2].
    apply join_map_cons in H1 as (fx & r1 & Hfx & Hr1 & ->).
    apply join_map_cons in H2 as (fy & r2 & Hfy & Hr2 & Heq).
    destruct (dumps_prefix x y fx fy r1 r2 Hsx Hsy Hfx Hfy Heq) as [<- <-].
    cbn [map]. f_equal.
    + exact (Hx Hsx y fx Hsy Hfx Hfy).
    + exact (IH Hs1 l2 r1 Hs2 Hr1 Hr2).
Qed.

Lemma sequence_text (h : handler) (l : list pyvalue) (f : str) (n : Z) :
  (data_str <- join_map dumps l ;; pack_text h data_str) = Ok (f, n) ->
  exists text, join_map dumps l = Ok text /\ pack_text h text = Ok (f, n).
Proof. intros H. apply bind_Ok in H as (text & Ht & Hp). eauto. Qed.

Lemma tuple_told_apart (l : list pyvalue) :
  Forall told_apart l -> told_apart (VTuple l).
Proof.
  intros HF Hs1 v2 f Hs2 H1 H2.
  apply dumps_Ok in H1 as [n1 H1]. apply dumps_Ok in H2 as [n2 H2].
  rewrite encode_tuple in H1. apply sequence_text in H1 as (t1 & Ht1 & Hp1).
  apply encode_shape in H2 as H2'. destruct H2' as [t2 Hp2].
  destruct (packed_inj _ _ _ _ _ _ _ Hp1 Hp2) as [Hh _].
  destruct v2; try discriminate Hh.
  rewrite encode_tuple in H2. apply sequence_text in H2 as (t2' & Ht2 & Hp2').
  destruct (packed_inj _ _ _ _ _ _ _ Hp1 Hp2') as [_ <-].
  cbn [normal_time]. f_equal.
  exact (members_told_apart l HF Hs1 items t1 Hs2 Ht1 Ht2).
Qed.

Lemma entries_told_apart (l1 : list (pyvalue * pyvalue)) :
  Forall (fun kv => told_apart (fst kv) /\ told_apart (snd kv)) l1 ->
  forallb (fun kv => supported (fst kv) && supported (snd kv)) l1 = true ->
  forall l2 text,
    forallb (fun kv => supported (fst kv) && supported (snd kv)) l2 = true ->
    join_map (fun kv => dumps (VTuple [fst kv; snd kv])) l1 = Ok text ->
    join_map (fun kv => dumps (VTuple [fst kv; snd kv])) l2 = Ok text ->
    map (fun kv => (normal_time (fst kv), normal_time (snd kv))) l1 =
    map (fun kv => (normal_time (fst kv), normal_time (snd kv))) l2.
Proof.
  induction 1 as [|x l1 [Hk Hv] _ IH]; intros Hs1 [|y l2] text Hs2 H1 H2.
  - reflexivity.
  - exfalso. injection H1 as <-.
    apply join_map_cons in H2 as (fy & r & Hy & _ & Ht).
    apply dumps_length in Hy. destruct fy; [cbn in Hy; lia | discriminate].
  - exfalso. injection H2 as <-.
    apply join_map_cons in H1 as (fx & r & Hfx & _ & Ht).
    apply dumps_length in Hfx. destruct fx; [cbn in Hfx; lia | discriminate].
  - cbn in Hs1, Hs2.
    apply andb_prop in Hs1 as [Hsx Hs1]. apply andb_prop in Hs2 as [Hsy Hs2].
    apply join_map_cons in H1 as (fx & r1 & Hfx & Hr1 & ->).
    apply join_map_cons in H2 as (fy & r2 & Hfy & Hr2 & Heq).
    assert (Hpx : supported (VTuple [fst x; snd x]) = true)
      by (cbn; now rewrite andb_true_r).
    assert (Hpy : supported (VTuple [fst y; snd y]) = true)
      by (cbn; now rewrite andb_true_r).
    destruct (dumps_prefix _ _ fx fy r1 r2 Hpx Hpy Hfx Hfy Heq) as [<- <-].
    assert (Ht : told_apart (VTuple [fst x; snd x])).
    { apply tuple_told_apart. repeat constructor; assumption. }
    pose proof (Ht Hpx _ fx Hpy Hfx Hfy) as Hn.
    cbn [normal_time map] in Hn. injection Hn as Hnk Hnv.
    cbn [map]. f_equal.
    + now rewrite Hnk, Hnv.
    + exact (IH Hs1 l2 r1 Hs2 Hr1 Hr2).
Qed.

Lemma dumps_told_apart (v1 : pyvalue) : told_apart v1.
Proof.
  induction v1 using pyvalue_ind; try (now apply tuple_told_apart);
    intros Hs1 v2 fr Hs2 H1 H2;
    apply dumps_Ok in H1 as [n1 H1]; apply dumps_Ok in H2 as [n2 H2];
    pose proof (encode_shape _ _ _ H1) as [t1 Hp1];
    pose proof (encode_shape _ _ _ H2) as [t2 Hp2];
    destruct (packed_inj _ _ _ _ _ _ _ Hp1 Hp2) as [Hh _];
    destruct v2; try discriminate Hh; clear t1 t2 Hp1 Hp2 Hh.
  - reflexivity.
  - cbn [encode] in H1, H2.
    apply bind_Ok in H1 as (t1 & Ht1 & Hp1).
    apply bind_Ok in H2 as (t2 & Ht2 & Hp2).
    destruct (packed_inj _ _ _ _ _ _ _ Hp1 Hp2) as [_ <-].
    apply int_str_Ok in Ht1 as [Ht1 _]. apply int_str_Ok in Ht2 as [Ht2 _].
    rewrite Ht1 in Ht2. apply str_of_Z_inj in Ht2.
    cbn [normal_time]. f_equal. now destruct b, b0.
  - cbn [encode] in H1, H2.
    destruct (packed_inj _ _ _ _ _ _ _ H1 H2) as [_ <-]. reflexivity.
  - cbn [encode] in H1, H2.
    apply bind_Ok in H1 as (t1 & Ht1 & Hp1).
    apply bind_Ok in H2 as (t2 & Ht2 & Hp2).
    destruct (packed_inj _ _ _ _ _ _ _ Hp1 Hp2) as [_ <-].
    cbn in Hs1, Hs2.
    destruct (fromisoformat_isoformat _ Hs1) as (t & Hi1 & Hf1).
    destruct (fromisoformat_isoformat _ Hs2) as (t' & Hi2 & Hf2).
    rewrite Ht1 in Hi1. injection Hi1 as <-.
    rewrite Ht2 in Hi2. injection Hi2 as <-.
    assert (Hd : decoded d = decoded d0) by congruence.
    cbn [normal_time]. now rewrite Hd.
  - cbn [encode] in H1, H2.
    apply bind_Ok in H1 as (t1 & Ht1 & Hp1).
    apply bind_Ok in H2 as (t2 & Ht2 & Hp2).
    destruct (packed_inj _ _ _ _ _ _ _ Hp1 Hp2) as [_ <-].
    apply int_str_Ok in Ht1 as [Ht1 _]. apply int_str_Ok in Ht2 as [Ht2 _].
    rewrite Ht1 in Ht2. apply str_of_Z_inj in Ht2.
    cbn [normal_time]. now f_equal.
  - cbn [encode] in H1, H2.
    destruct (packed_inj _ _ _ _ _ _ _ H1 H2) as [_ Ht].
    cbn in Hs1, Hs2.
    pose proof (float_of_str_float_str _ Hs1) as Hf1.
    rewrite Ht, (float_of_str_float_str _ Hs2) in Hf1.
    injection Hf1 as <-. reflexivity.
  - rewrite encode_list in H1, H2.
    apply sequence_text in H1 as (t1 & Ht1 & Hp1).
    apply sequence_text in H2 as (t2 & Ht2 & Hp2).
    destruct (packed_inj _ _ _ _ _ _ _ Hp1 Hp2) as [_ <-].
    cbn [normal_time]. f_equal.
    exact (members_told_apart l H Hs1 items t1 Hs2 Ht1 Ht2).
  - rewrite encode_set in H1, H2.
    apply sequence_text in H1 as (t1 & Ht1 & Hp1).
    apply sequence_text in H2 as (t2 & Ht2 & Hp2).
    destruct (packed_inj _ _ _ _ _ _ _ Hp1 Hp2) as [_ <-].
    cbn [supported] in Hs1, Hs2.
    apply andb_prop in Hs1 as [Hs1 _]. apply andb_prop in Hs1 as [Hs1 _].
    apply andb_prop in Hs2 as [Hs2 _]. apply andb_prop in Hs2 as [Hs2 _].
    cbn [normal_time]. f_equal.
    exact (members_told_apart l H Hs1 items t1 Hs2 Ht1 Ht2).
  - rewrite encode_dict in H1, H2.
    apply bind_Ok in H1 as (t1 & Ht1 & Hp1).
    apply bind_Ok in H2 as (t2 & Ht2 & Hp2).
    destruct (packed_inj _ _ _ _ _ _ _ Hp1 Hp2) as [_ <-].
    cbn [supported] in Hs1, Hs2.
    apply andb_prop in Hs1 as [Hs1 _]. apply andb_prop in Hs1 as [Hs1 _].
    apply andb_prop in Hs2 as [Hs2 _]. apply andb_prop in Hs2 as [Hs2 _].
    cbn [normal_time]. f_equal.
    exact (entries_told_apart l H Hs1 items t1 Hs2 Ht1 Ht2).
Qed.

End Injective.

Section RoundTrips.

Context {builtins : Builtins} {contracts : BuiltinContracts builtins}.



(** X3.  Fragments are self-delimiting: when the encodings of two
    supported values, each followed by any text, give the same text,
    the two encodings are the same text, what follows them is the
    same, and the two values are the same but for what the text of a
    datetime does not show: with their datetimes as [fromisoformat]
    reads them, they are equal. *)
Theorem fragments_self_delimiting (v1 v2 : pyvalue) (f1 f2 r1 r2 : str) :
  supported v1 = true ->
  supported v2 = true ->
  dumps v1 = Ok f1 ->
  dumps v2 = Ok f2 ->
  f1 ++ r1 = f2 ++ r2 ->
  f1 = f2 /\ r1 = r2 /\ normal_time v1 = normal_time v2 /\
  same (normal_time v1) (normal_time v2).
Proof.
  intros Hs1 Hs2 H1 H2 Heq.
  destruct (dumps_prefix v1 v2 f1 f2 r1 r2 Hs1 Hs2 H1 H2 Heq) as [<- <-].
  assert (Hn : normal_time v1 = normal_time v2)
    by exact (dumps_told_apart v1 Hs1 v2 f1 Hs2 H1 H2).
  repeat split; try assumption.
  rewrite Hn. apply same_refl.
Qed.

End RoundTrips.

(** ** What the framing reads, in full *)

Lemma split_head_In (d : char) (s : str) :
  In d s -> (length (split_head d s) < length s)%nat.
Proof.
  induction s as [|c s IH]; cbn; [contradiction|].
  intros Hin. destruct (N.eqb_spec c d) as [->|Hne]; cbn; [lia|].
  destruct Hin as [Hc|Hin]; [congruence|]. specialize (IH Hin). lia.
Qed.

(** A slice that starts after the prefix [pre], for any stop index. *)
Lemma py_slice_after (pre body : str) (stop : Z) :
  py_slice (pre ++ body) (len pre) stop =
  firstn (Z.to_nat (slice_index (len pre + len body) stop - len pre)) body.
Proof.
  unfold py_slice. rewrite len_app.
  rewrite (slice_index_inside _ (len pre))
    by (pose proof (len_nonneg pre); pose proof (len_nonneg body); lia).
  now rewrite skipn_len_app.
Qed.

(** Replacing the first character changes no slice that starts after
    it. *)
Lemma py_slice_head (t t' : char) (r : str) (a b : Z) :
  1 <= a -> py_slice (t :: r) a b = py_slice (t' :: r) a b.
Proof.
  intros Ha. unfold py_slice.
  change (len (t' :: r)) with (len (t :: r)).
  set (i := slice_index (len (t :: r)) a).
  assert (Hi : 1 <= i).
  { unfold i, slice_index. rewrite len_cons. pose proof (len_nonneg r).
    destruct (Z.ltb_spec a 0); lia. }
  destruct (Z.to_nat i) as [|k] eqn:Hk; [lia|]. reflexivity.
Qed.

Section FramingInFull.

Context {builtins : Builtins}.

Lemma unpack_inv (t : char) (r value : str) (length offset : Z) :
  _unpack (t :: r) = Ok (value, length, offset) ->
  offset = len (split_head delimiter r) + 2 /\
  py_int (split_head delimiter r) = Ok length /\
  value = py_slice (t :: r) offset (offset + length).
Proof.
  unfold _unpack. cbn [get_tag bind]. rewrite py_slice_from_tail.
  intros H. apply bind_Ok in H as (n & Hint & H).
  injection H as Hv Hl Ho. subst. repeat split; try assumption; lia.
Qed.

Lemma unpack_head (t t' : char) (r : str) :
  _unpack (t :: r) = _unpack (t' :: r).
Proof.
  unfold _unpack. cbn [get_tag bind]. rewrite !py_slice_from_tail.
  destruct (py_int _) as [n|e]; cbn [bind]; [|reflexivity].
  rewrite (py_slice_head t t').
  - reflexivity.
  - pose proof (len_nonneg (split_head delimiter r)). lia.
Qed.

Lemma decode_fuel_head (fuel : nat) (h : handler) (t t' : char) (r : str) :
  decode_fuel fuel h (t :: r) = decode_fuel fuel h (t' :: r).
Proof.
  destruct fuel as [|fuel]; [reflexivity|]. cbn [decode_fuel].
  now rewrite (unpack_head t t').
Qed.

(** X9.  No [decode] looks at the tag: the decoding of a handler on a
    text does not change when the first character of the text is
    replaced by any other. *)
Theorem decode_ignores_tag (h : handler) (t t' : char) (r : str) :
  decode h (t :: r) = decode h (t' :: r).
Proof. unfold decode. cbn [length]. apply decode_fuel_head. Qed.

(** X6.  The consumed length that a successful [decode] reports lies
    between three and one more than the length of the text.  It stays
    within the text when a delimiter follows the tag, and it is
    exactly one past the end of the text when there is none. *)
Theorem consumed_length_bounds (h : handler) (raw : str) (v : pyvalue)
  (n : Z) :
  decode h raw = Ok (v, n) ->
  3 <= n <= len raw + 1 /\
  (In delimiter (tl raw) -> n <= len raw) /\
  (~ In delimiter (tl raw) -> n = len raw + 1).
Proof.
  intros Hd. pose proof (decode_fuel_consumed _ _ _ _ _ Hd) as H3.
  apply decode_fuel_Ok in Hd as (value & length & offset & Hu & ->).
  destruct raw as [|t r]; [discriminate Hu|].
  apply unpack_inv in Hu as (Ho & _ & Hv). cbn [tl].
  assert (Hin : In delimiter r -> len value + offset <= len (t :: r)).
  { intros Hin. apply split_head_In in Hin.
    pose proof (py_slice_length (t :: r) offset (offset + length)) as Hl.
    rewrite <- Hv in Hl.
    rewrite slice_index_inside in Hl
      by (rewrite len_cons; unfold len in *; lia).
    rewrite len_cons in *. unfold len in *. cbn [List.length] in Hl. lia. }
  assert (Hout : ~ In delimiter r -> len value + offset = len (t :: r) + 1).
  { intros Hnot. rewrite (split_head_whole _ _ Hnot) in Ho.
    rewrite py_slice_beyond in Hv by (rewrite len_cons; lia).
    subst value. rewrite len_nil, len_cons. lia. }
  repeat split; try assumption.
  destruct (in_dec N.eq_dec delimiter r) as [Hi|Hi];
    [specialize (Hin Hi) | specialize (Hout Hi)]; lia.
Qed.

(** X7.  A text that holds no delimiter, and whose characters after
    the tag [int] accepts, is decoded with an empty value: a text tag
    gives the empty text, a list tag the empty list, the tag of None
    gives None. *)
Theorem missing_delimiter_reads_empty (length_str : str) (n : Z) :
  ~ In delimiter length_str ->
  py_int length_str = Ok n ->
  (forall t, _unpack (t :: length_str) = Ok ([], n, len length_str + 2)) /\
  loads (tag StringHandler :: length_str) = Ok (VStr []) /\
  loads (tag ListHandler :: length_str) = Ok (VList []) /\
  loads (tag NoneHandler :: length_str) = Ok VNone.
Proof.
  intros Hd Hint.
  assert (Hu : forall t,
             _unpack (t :: length_str) = Ok ([], n, len length_str + 2)).
  { intros t. unfold _unpack. cbn [get_tag bind].
    rewrite py_slice_from_tail, (split_head_whole _ _ Hd), Hint. cbn [bind].
    rewrite py_slice_beyond by (rewrite len_cons; lia).
    now replace (len length_str + 1 + 1) with (len length_str + 2) by lia. }
  split; [exact Hu|].
  repeat split; unfold loads, get_by_raw_data; cbn [get_tag bind].
  - change (lookup_tag _tag_2_handler (tag StringHandler))
      with (Some StringHandler).
    cbv iota. unfold decode. cbn [decode_fuel]. now rewrite Hu.
  - change (lookup_tag _tag_2_handler (tag ListHandler))
      with (Some ListHandler).
    cbv iota. unfold decode. cbn [decode_fuel length]. rewrite Hu.
    cbn [bind]. reflexivity.
  - change (lookup_tag _tag_2_handler (tag NoneHandler))
      with (Some NoneHandler).
    cbv iota. unfold decode. cbn [decode_fuel]. now rewrite Hu.
Qed.

(** X8.  A negative declared length raises nothing.  When it is no
    less than minus the offset of the value, the value is empty;
    below that it counts from the end of the text, and the value is
    the payload without its last characters. *)
Theorem negative_length_slices (length_str body : str) (n : Z) :
  ~ In delimiter length_str ->
  py_int length_str = Ok n ->
  n < 0 ->
  let offset := len length_str + 2 in
  loads (tag StringHandler :: length_str ++ delimiter :: body) =
  Ok (VStr (if offset + n <? 0
            then firstn (Z.to_nat (len body + (offset + n))) body
            else [])).
Proof.
  intros Hd Hint Hn offset.
  unfold loads, get_by_raw_data. cbn [get_tag bind].
  change (lookup_tag _tag_2_handler (tag StringHandler))
    with (Some StringHandler).
  cbv iota. unfold decode. cbn [decode_fuel].
  unfold _unpack. cbn [get_tag bind].
  rewrite py_slice_from_tail, split_head_app by assumption.
  rewrite Hint. cbn [bind].
  change (tag StringHandler :: length_str ++ delimiter :: body)
    with ((tag StringHandler :: length_str) ++ [delimiter] ++ body).
  rewrite app_assoc.
  assert (Hpre : len ((tag StringHandler :: length_str) ++ [delimiter])
                 = offset).
  { rewrite len_app, !len_cons, len_nil. unfold offset. lia. }
  replace (len length_str + 1 + 1) with offset by (unfold offset; lia).
  rewrite <- Hpre at 1. rewrite py_slice_after, Hpre.
  do 2 f_equal.
  pose proof (len_nonneg body) as Hb.
  pose proof (len_nonneg length_str) as Hl.
  unfold slice_index.
  destruct (Z.ltb_spec (offset + n) 0) as [Hlt|Hge].
  - f_equal. unfold offset in *. lia.
  - replace (Z.to_nat (Z.min (offset + n) (offset + len body) - offset))
      with O by (unfold offset in *; lia).
    reflexivity.
Qed.

End FramingInFull.

(** ** Termination, and the one text that raises IndexError *)

Section Termination.

Context {builtins : Builtins}.

(** X4.  Decoding terminates on every text: a member that a loop
    decodes consumes at least three characters, so a text of [n]
    characters is decoded within [n + 1] nested steps, and allowing
    more steps changes no result. *)
Theorem decoding_terminates (h : handler) (raw : str) (fuel : nat) :
  (length raw < fuel)%nat ->
  decode_fuel fuel h raw = decode h raw /\
  decode h raw <> Raise OutOfFuel /\
  loads raw <> Raise OutOfFuel.
Proof.
  intros Hlen. destruct (decode_fuel_enough h raw fuel Hlen) as [He Hn].
  repeat split; try assumption.
  unfold loads. destruct (get_by_raw_data raw) as [hh|e] eqn:Hh; cbn [bind].
  - destruct (decode_fuel_enough hh raw (S (length raw))) as [_ Hhh]; [lia|].
    destruct (decode hh raw) as [[v n]|e]; cbn [bind]; congruence.
  - intros [= ->]. apply get_by_raw_data_error in Hh.
    destruct Hh; discriminate.
Qed.

Lemma unpack_error_nonempty (t : char) (r : str) (e : exn) :
  _unpack (t :: r) = Raise e -> e = ValueError.
Proof.
  unfold _unpack. cbn [get_tag bind].
  destruct (py_int _) eqn:Hint; cbn [bind]; [discriminate|].
  intros [= <-]. exact (py_int_error _ _ Hint).
Qed.

Lemma get_by_raw_data_error_nonempty (t : char) (r : str) (e : exn) :
  get_by_raw_data (t :: r) = Raise e -> e = KeyError.
Proof.
  unfold get_by_raw_data. cbn [get_tag bind].
  destruct (lookup_tag _tag_2_handler t); [discriminate|]. congruence.
Qed.

Ltac not_index E :=
  let H := fresh in
  intros H; injection H as H; subst;
  first
    [ apply py_int_error in E; discriminate E
    | apply of_option_error in E; discriminate E
    | apply py_set_from_error in E; discriminate E
    | apply unpack_error_nonempty in E; discriminate E
    | apply get_by_raw_data_error_nonempty in E; discriminate E
    | apply py_dict_from_error in E; destruct E; discriminate ].

(** No handler and no loop raises IndexError on a text that is not
    empty: a loop only reads a member where characters are left. *)
Lemma no_index_error (fuel : nat) :
  (forall h t r, decode_fuel fuel h (t :: r) <> Raise IndexError) /\
  (forall value offset items,
      0 <= offset ->
      decode_items fuel value offset items <> Raise IndexError) /\
  (forall value offset pairs,
      0 <= offset ->
      decode_pairs fuel value offset pairs <> Raise IndexError).
Proof.
  induction fuel as [|fuel (IHd & IHi & IHp)].
  - repeat split; intros; discriminate.
  - repeat split.
    + intros h t r. cbn [decode_fuel].
      destruct (_unpack (t :: r)) as [[[value length] offset]|e] eqn:Hu;
        cbn [bind]; [|not_index Hu].
      destruct h; try discriminate.
      * destruct (py_int value) eqn:E; cbn [bind]; [discriminate|].
        not_index E.
      * destruct (of_option _) eqn:E; cbn [bind]; [discriminate|].
        not_index E.
      * destruct (py_int value) eqn:E; cbn [bind]; [discriminate|].
        not_index E.
      * destruct (of_option _) eqn:E; cbn [bind]; [discriminate|].
        not_index E.
      * destruct (decode_items fuel value 0 []) eqn:E; cbn [bind];
          [discriminate|].
        intros [= ->]. revert E. apply IHi. lia.
      * destruct (decode_items fuel value 0 []) eqn:E; cbn [bind];
          [discriminate|].
        intros [= ->]. revert E. apply IHi. lia.
      * destruct (decode_items fuel value 0 []) eqn:E; cbn [bind].
        -- unfold py_set. destruct (py_set_from [] a) eqn:E'; cbn [bind];
             [discriminate|]. not_index E'.
        -- intros [= ->]. revert E. apply IHi. lia.
      * destruct (decode_pairs fuel value 0 []) eqn:E; cbn [bind].
        -- unfold py_dict. destruct (py_dict_from [] a) eqn:E'; cbn [bind];
             [discriminate|]. not_index E'.
        -- intros [= ->]. revert E. apply IHp. lia.
    + intros value offset items Ho. cbn [decode_items].
      destruct (Z.ltb_spec offset (len value)) as [Hlt|Hge]; [|discriminate].
      pose proof (py_slice_from_length value offset ltac:(lia)) as Hlen.
      destruct (py_slice_from value offset) as [|t r] eqn:Hsl;
        [rewrite len_nil in Hlen; lia|].
      destruct (get_by_raw_data (t :: r)) as [hh|e] eqn:Hh; cbn [bind];
        [|not_index Hh].
      destruct (decode_fuel fuel hh (t :: r)) as [[item n]|e] eqn:Hd;
        cbn [bind].
      * apply decode_fuel_consumed in Hd. apply IHi. lia.
      * intros [= ->]. revert Hd. apply IHd.
    + intros value offset pairs Ho. cbn [decode_pairs].
      destruct (Z.ltb_spec offset (len value)) as [Hlt|Hge]; [|discriminate].
      pose proof (py_slice_from_length value offset ltac:(lia)) as Hlen.
      destruct (py_slice_from value offset) as [|t r] eqn:Hsl;
        [rewrite len_nil in Hlen; lia|].
      destruct (decode_fuel fuel TupleHandler (t :: r)) as [[item n]|e] eqn:Hd;
        cbn [bind].
      * apply decode_fuel_consumed in Hd. apply IHp. lia.
      * intros [= ->]. revert Hd. apply IHd.
Qed.

(** X5.  [loads] raises IndexError on the empty text and on no other
    text: inside a collection a member is only read where characters
    are left. *)
Theorem index_error_only_on_empty (raw : str) :
  loads raw = Raise IndexError <-> raw = [].
Proof.
  split.
  - destruct raw as [|t r]; [reflexivity|]. intros H. exfalso.
    unfold loads in H.
    destruct (get_by_raw_data (t :: r)) as [h|e] eqn:Hh; cbn [bind] in H.
    + unfold decode in H.
      destruct (decode_fuel (S (length (t :: r))) h (t :: r))
        as [[v n]|e] eqn:Hd; cbn [bind] in H; [discriminate|].
      injection H as ->. revert Hd. apply no_index_error.
    + injection H as ->. apply get_by_raw_data_error_nonempty in Hh.
      discriminate.
  - intros ->. reflexivity.
Qed.

End Termination.

(** ** The registry *)

Lemma has_tag_entries (hs : list handler) (h : handler) :
  has_tag (map entry_of hs) (tag h) = true <-> In h hs.
Proof.
  unfold has_tag. rewrite existsb_exists. split.
  - intros (entry & Hin & Heq). apply in_map_iff in Hin as (h' & <- & Hin).
    cbn in Heq. apply N.eqb_eq in Heq. apply tag_injective in Heq.
    now subst.
  - intros Hin. exists (entry_of h). split.
    + now apply in_map.
    + apply N.eqb_refl.
Qed.

Lemma register_fold_raise (hs : list handler) (e : exn) :
  fold_left (fun acc h => reg <- acc ;; register reg h) hs (Raise e) =
  Raise e.
Proof. induction hs as [|h hs IH]; [reflexivity | exact IH]. Qed.

(** Registering the handlers [hs] after the handlers [done]. *)
Lemma register_fold (hs done : list handler) :
  NoDup done ->
  (NoDup (done ++ hs) ->
   fold_left (fun acc h => reg <- acc ;; register reg h) hs
     (Ok (map entry_of done)) = Ok (map entry_of (done ++ hs))) /\
  (~ NoDup (done ++ hs) ->
   fold_left (fun acc h => reg <- acc ;; register reg h) hs
     (Ok (map entry_of done)) = Raise KeyError).
Proof.
  revert done. induction hs as [|h hs IH]; intros done Hdone.
  - rewrite app_nil_r. split; [reflexivity | contradiction].
  - cbn [fold_left bind]. unfold register.
    destruct (has_tag (map entry_of done) (tag h)) eqn:Hin.
    + apply has_tag_entries in Hin. split.
      * intros Hnd. exfalso. apply NoDup_remove_2 in Hnd.
        apply Hnd. apply in_or_app. now left.
      * intros _. apply register_fold_raise.
    + assert (Hnot : ~ In h done).
      { intros H. apply has_tag_entries in H. congruence. }
      assert (Hdone' : NoDup (done ++ [h])).
      { apply NoDup_app; [assumption | repeat constructor; auto | ].
        intros x Hx [<-|[]]. contradiction. }
      change (map entry_of done ++ [(tag h, h)])
        with (map entry_of done ++ map entry_of [h]).
      rewrite <- map_app.
      replace (done ++ h :: hs) with ((done ++ [h]) ++ hs)
        by now rewrite <- app_assoc.
      now apply IH.
Qed.

(** X10.  Registration keeps the tags unique: a sequence of handlers
    is registered without an error exactly when no handler comes
    twice, the registry then holds one entry per handler in the order
    of registration, each found under its tag; otherwise the
    registration raises KeyError. *)
Theorem registration_keeps_tags_unique (hs : list handler) :
  (NoDup hs ->
   register_all hs = Ok (map entry_of hs) /\
   forall h, In h hs -> lookup_tag (map entry_of hs) (tag h) = Some h) /\
  (~ NoDup hs -> register_all hs = Raise KeyError).
Proof.
  destruct (register_fold hs [] (NoDup_nil _)) as [Hok Hbad].
  cbn [app map] in *. split; [|exact Hbad].
  intros Hnd. split; [exact (Hok Hnd)|].
  intros h Hin. unfold lookup_tag.
  clear Hok Hbad. induction hs as [|h' hs IH]; [contradiction|].
  cbn [map find entry_of fst].
  destruct (N.eqb_spec (tag h') (tag h)) as [Heq|Hne].
  - apply tag_injective in Heq. now subst.
  - destruct Hin as [->|Hin]; [congruence|].
    apply IH; [|assumption]. now apply NoDup_cons_iff in Hnd.
Qed.

(** X11.  Loading the module fills both dictionaries of the factory
    without an error and without one handler hiding another: every
    handler is found under its tag and under its type, the handler
    found for the type of a value is the one that encodes it, and the
    first character of an encoding leads back to that handler. *)
Theorem factory_dispatch_consistent {builtins : Builtins} :
  exists F,
    Factory_load = Ok F /\
    tag_2_handler F = _tag_2_handler /\
    (forall h,
        lookup_tag (tag_2_handler F) (tag h) = Some h /\
        lookup_type (type_2_handler F) (factory h) = Some h) /\
    (forall v f rest,
        Factory_get_by_data F v = Ok (get_by_data v) /\
        (dumps v = Ok f ->
         get_by_raw_data (f ++ rest) = Ok (get_by_data v))).
Proof.
  eexists. split; [reflexivity|]. split; [reflexivity|]. split.
  - intros h. destruct h; split; reflexivity.
  - intros v f rest. split.
    + destruct v; reflexivity.
    + intros Hf. apply dumps_Ok in Hf as [n He].
      exact (get_by_raw_data_encoded _ _ _ _ He).
Qed.


(** ** A collection decodes the fragments of its value one by one *)

Section Streams.

Context {builtins : Builtins}.

Lemma well_formed_length (f : str) : well_formed f -> 3 <= len f.
Proof.
  intros (t & length_str & payload & -> & _ & Hint).
  destruct length_str as [|c l]; [rewrite py_int_nil in Hint; discriminate|].
  cbn [app]. rewrite !len_cons, len_app, len_cons.
  pose proof (len_nonneg l). pose proof (len_nonneg payload). lia.
Qed.

Lemma decode_items_unfold (fuel : nat) (value : str) (offset : Z)
  (items : list pyvalue) :
  decode_items (S fuel) value offset items =
  if offset <? len value then
    item_handler <- get_by_raw_data (py_slice_from value offset) ;;
    '(item, item_len) <-
      decode_fuel fuel item_handler (py_slice_from value offset) ;;
    decode_items fuel value (offset + item_len) (items ++ [item])
  else Ok items.
Proof. reflexivity. Qed.

Lemma decode_pairs_unfold (fuel : nat) (value : str) (offset : Z)
  (pairs : list pyvalue) :
  decode_pairs (S fuel) value offset pairs =
  if offset <? len value then
    '(pair_, pair_len) <-
      decode_fuel fuel TupleHandler (py_slice_from value offset) ;;
    decode_pairs fuel value (offset + pair_len) (pairs ++ [pair_])
  else Ok pairs.
Proof. reflexivity. Qed.

(** The loops give the same result for every sufficient fuel. *)
Lemma decode_items_stable (fuel fuel' : nat) (value : str) (offset : Z)
  (items : list pyvalue) :
  0 <= offset ->
  (1 <= fuel)%nat -> (1 <= fuel')%nat ->
  (offset < len value -> len value - offset + 2 <= Z.of_nat fuel) ->
  (offset < len value -> len value - offset + 2 <= Z.of_nat fuel') ->
  decode_items fuel' value offset items = decode_items fuel value offset items.
Proof.
  intros Ho H1 H1' Hb Hb'.
  destruct (Nat.le_ge_cases fuel fuel') as [Hle|Hge].
  - apply (decode_fuel_mono fuel fuel' Hle).
    now apply decode_fuel_adequate.
  - symmetry. apply (decode_fuel_mono fuel' fuel Hge).
    now apply decode_fuel_adequate.
Qed.

Lemma decode_pairs_stable (fuel fuel' : nat) (value : str) (offset : Z)
  (pairs : list pyvalue) :
  0 <= offset ->
  (1 <= fuel)%nat -> (1 <= fuel')%nat ->
  (offset < len value -> len value - offset + 2 <= Z.of_nat fuel) ->
  (offset < len value -> len value - offset + 2 <= Z.of_nat fuel') ->
  decode_pairs fuel' value offset pairs = decode_pairs fuel value offset pairs.
Proof.
  intros Ho H1 H1' Hb Hb'.
  destruct (Nat.le_ge_cases fuel fuel') as [Hle|Hge].
  - apply (decode_fuel_mono fuel fuel' Hle).
    now apply decode_fuel_adequate.
  - symmetry. apply (decode_fuel_mono fuel' fuel Hge).
    now apply decode_fuel_adequate.
Qed.

Lemma decode_fragment_Ok (f : str) (v : pyvalue) (n : Z) :
  decode_fragment f = Ok (v, n) ->
  exists h, get_by_raw_data f = Ok h /\ decode h f = Ok (v, n).
Proof.
  unfold decode_fragment. intros H.
  apply bind_Ok in H as (h & Hh & Hd). eauto.
Qed.

Lemma get_by_raw_data_trailing (f s : str) :
  well_formed f -> get_by_raw_data (f ++ s) = get_by_raw_data f.
Proof. intros (t & length_str & payload & -> & _). reflexivity. Qed.

(** One turn of the loop of a collection over an exact fragment. *)
Lemma decode_items_step (f : str) (v : pyvalue) (pre tail : str)
  (acc : list pyvalue) (fuel : nat) :
  exact_fragment f v ->
  (length (pre ++ f ++ tail) + 2 <= fuel)%nat ->
  decode_items fuel (pre ++ f ++ tail) (len pre) acc =
  decode_items fuel (pre ++ f ++ tail) (len pre + len f) (acc ++ [v]).
Proof.
  intros [Hwf Hd] Hfuel.
  pose proof (well_formed_length f Hwf) as Hlen.
  pose proof (len_nonneg pre) as Hpre. pose proof (len_nonneg tail) as Htail.
  assert (Hval : len (pre ++ f ++ tail) = len pre + len f + len tail)
    by (rewrite !len_app; lia).
  assert (Hnat : Z.of_nat (length (pre ++ f ++ tail)) =
                 len pre + len f + len tail) by exact Hval.
  assert (Hft : Z.of_nat (length (f ++ tail)) = len f + len tail)
    by (fold (len (f ++ tail)); rewrite len_app; lia).
  destruct fuel as [|fuel]; [lia|].
  rewrite decode_items_unfold at 1.
  assert (Hlt : (len pre <? len (pre ++ f ++ tail)) = true)
    by (apply Z.ltb_lt; lia).
  rewrite Hlt, py_slice_from_app.
  rewrite get_by_raw_data_trailing by assumption.
  apply decode_fragment_Ok in Hd as (h & Hh & Hd).
  rewrite Hh. cbn [bind].
  destruct (decode_fuel_enough h (f ++ tail) fuel) as [-> _]; [lia|].
  rewrite decode_trailing by assumption. rewrite Hd. cbn [bind].
  apply decode_items_stable; lia.
Qed.

Lemma decode_pairs_step (f : str) (v : pyvalue) (pre tail : str)
  (acc : list pyvalue) (fuel : nat) :
  exact_pair f v ->
  (length (pre ++ f ++ tail) + 2 <= fuel)%nat ->
  decode_pairs fuel (pre ++ f ++ tail) (len pre) acc =
  decode_pairs fuel (pre ++ f ++ tail) (len pre + len f) (acc ++ [v]).
Proof.
  intros [Hwf Hd] Hfuel.
  pose proof (well_formed_length f Hwf) as Hlen.
  pose proof (len_nonneg pre) as Hpre. pose proof (len_nonneg tail) as Htail.
  assert (Hval : len (pre ++ f ++ tail) = len pre + len f + len tail)
    by (rewrite !len_app; lia).
  assert (Hnat : Z.of_nat (length (pre ++ f ++ tail)) =
                 len pre + len f + len tail) by exact Hval.
  assert (Hft : Z.of_nat (length (f ++ tail)) = len f + len tail)
    by (fold (len (f ++ tail)); rewrite len_app; lia).
  destruct fuel as [|fuel]; [lia|].
  rewrite decode_pairs_unfold at 1.
  assert (Hlt : (len pre <? len (pre ++ f ++ tail)) = true)
    by (apply Z.ltb_lt; lia).
  rewrite Hlt, py_slice_from_app.
  destruct (decode_fuel_enough TupleHandler (f ++ tail) fuel) as [-> _];
    [lia|].
  rewrite decode_trailing by assumption. rewrite Hd. cbn [bind].
  apply decode_pairs_stable; lia.
Qed.

(** The loop over a run of exact fragments. *)
Lemma decode_items_stream (fs : list str) (vs : list pyvalue) :
  Forall2 exact_fragment fs vs ->
  forall pre tail acc fuel,
    (length (pre ++ concat fs ++ tail) + 2 <= fuel)%nat ->
    decode_items fuel (pre ++ concat fs ++ tail) (len pre) acc =
    decode_items fuel (pre ++ concat fs ++ tail)
      (len pre + len (concat fs)) (acc ++ vs).
Proof.
  induction 1 as [|f v fs vs Hf _ IH]; intros pre tail acc fuel Hfuel.
  - cbn [concat]. rewrite len_nil, Z.add_0_r, app_nil_r. reflexivity.
  - cbn [concat] in *. rewrite <- app_assoc in *.
    rewrite (decode_items_step f v pre (concat fs ++ tail) acc fuel Hf Hfuel).
    rewrite <- len_app.
    replace (pre ++ f ++ concat fs ++ tail)
      with ((pre ++ f) ++ concat fs ++ tail) in *
      by now rewrite <- app_assoc.
    rewrite IH by assumption.
    rewrite !len_app, <- app_assoc.
    f_equal; [lia | now rewrite <- app_assoc].
Qed.

Lemma decode_pairs_stream (fs : list str) (vs : list pyvalue) :
  Forall2 exact_pair fs vs ->
  forall pre tail acc fuel,
    (length (pre ++ concat fs ++ tail) + 2 <= fuel)%nat ->
    decode_pairs fuel (pre ++ concat fs ++ tail) (len pre) acc =
    decode_pairs fuel (pre ++ concat fs ++ tail)
      (len pre + len (concat fs)) (acc ++ vs).
Proof.
  induction 1 as [|f v fs vs Hf _ IH]; intros pre tail acc fuel Hfuel.
  - cbn [concat]. rewrite len_nil, Z.add_0_r, app_nil_r. reflexivity.
  - cbn [concat] in *. rewrite <- app_assoc in *.
    rewrite (decode_pairs_step f v pre (concat fs ++ tail) acc fuel Hf Hfuel).
    rewrite <- len_app.
    replace (pre ++ f ++ concat fs ++ tail)
      with ((pre ++ f) ++ concat fs ++ tail) in *
      by now rewrite <- app_assoc.
    rewrite IH by assumption.
    rewrite !len_app, <- app_assoc.
    f_equal; [lia | now rewrite <- app_assoc].
Qed.

(** The whole loop, on a value made of exact fragments only. *)
Lemma decode_items_all (fs : list str) (vs : list pyvalue) (fuel : nat) :
  Forall2 exact_fragment fs vs ->
  (length (concat fs) + 2 <= fuel)%nat ->
  decode_items fuel (concat fs) 0 [] = Ok vs.
Proof.
  intros HF Hfuel.
  pose proof (decode_items_stream fs vs HF [] [] [] fuel) as H.
  cbn [app] in H. rewrite app_nil_r in H. change (len (@nil char)) with 0 in H.
  rewrite H by assumption. cbn [Z.add].
  destruct fuel as [|fuel]; [lia|].
  rewrite decode_items_unfold, Z.ltb_irrefl. reflexivity.
Qed.

Lemma decode_pairs_all (fs : list str) (vs : list pyvalue) (fuel : nat) :
  Forall2 exact_pair fs vs ->
  (length (concat fs) + 2 <= fuel)%nat ->
  decode_pairs fuel (concat fs) 0 [] = Ok vs.
Proof.
  intros HF Hfuel.
  pose proof (decode_pairs_stream fs vs HF [] [] [] fuel) as H.
  cbn [app] in H. rewrite app_nil_r in H. change (len (@nil char)) with 0 in H.
  rewrite H by assumption. cbn [Z.add].
  destruct fuel as [|fuel]; [lia|].
  rewrite decode_pairs_unfold, Z.ltb_irrefl. reflexivity.
Qed.

(** The loop stops at the first fragment that fails, with its
    error. *)
Lemma decode_items_failing (fs : list str) (vs : list pyvalue) (f rest : str)
  (e : exn) (fuel : nat) :
  Forall2 exact_fragment fs vs ->
  well_formed f ->
  decode_fragment f = Raise e ->
  (length (concat fs ++ f ++ rest) + 2 <= fuel)%nat ->
  decode_items fuel (concat fs ++ f ++ rest) 0 [] = Raise e.
Proof.
  intros HF Hwf He Hfuel.
  pose proof (decode_items_stream fs vs HF [] (f ++ rest) [] fuel) as H.
  cbn [app] in H. change (len (@nil char)) with 0 in H.
  rewrite H by assumption. cbn [Z.add]. clear H.
  pose proof (well_formed_length f Hwf) as Hlen.
  pose proof (len_nonneg rest) as Hrest.
  pose proof (len_nonneg (concat fs)) as Hfs.
  assert (Hft : Z.of_nat (length (f ++ rest)) = len f + len rest)
    by (fold (len (f ++ rest)); rewrite len_app; lia).
  assert (Hall : Z.of_nat (length (concat fs ++ f ++ rest)) =
                 len (concat fs) + len f + len rest)
    by (fold (len (concat fs ++ f ++ rest)); rewrite !len_app; lia).
  destruct fuel as [|fuel]; [lia|].
  rewrite decode_items_unfold.
  assert (Hlt : (len (concat fs) <? len (concat fs ++ f ++ rest)) = true)
    by (apply Z.ltb_lt; rewrite !len_app; lia).
  rewrite Hlt, py_slice_from_app.
  rewrite get_by_raw_data_trailing by assumption.
  unfold decode_fragment in He.
  destruct (get_by_raw_data f) as [h|e']; cbn [bind] in *;
    [|now injection He as ->].
  destruct (decode_fuel_enough h (f ++ rest) fuel) as [-> _]; [lia|].
  rewrite decode_trailing by assumption. now rewrite He.
Qed.

Lemma loads_packed (h : handler) (text f : str) :
  _pack h (len text) text = Ok f ->
  loads f = ('(v, _) <- decode_fuel (S (length f)) h f ;; Ok v).
Proof.
  intros Hp. apply pack_shape in Hp as ->.
  unfold loads, get_by_raw_data. cbn [get_tag bind].
  now rewrite lookup_tag_registered.
Qed.

Lemma unpack_packed (h : handler) (text f : str) :
  _pack h (len text) text = Ok f ->
  _unpack f = Ok (text, len text, len (str_of_Z (len text)) + 2).
Proof.
  intros Hp. pose proof (unpack_pack h text [] f Hp) as H.
  now rewrite app_nil_r in H.
Qed.

(** What [loads] does with a packed collection: it runs the loop on
    the value, with fuel for the whole text. *)
Lemma loads_packed_unfold (h : handler) (text f : str) :
  _pack h (len text) text = Ok f ->
  exists fuel,
    (length text + 2 <= fuel)%nat /\
    loads f =
    ('(v, _) <-
       ('(value, length, offset) <-
          Ok (text, len text, len (str_of_Z (len text)) + 2) ;;
        match h with
        | NoneHandler => Ok (VNone, len value + offset)
        | BooleanHandler =>
            n <- py_int value ;;
            Ok (VBool (negb (n =? 0)), len value + offset)
        | StringHandler => Ok (VStr value, len value + offset)
        | DatetimeHandler =>
            d <- of_option (fromisoformat value) ;;
            Ok (VDatetime d, len value + offset)
        | IntegerHandler =>
            z <- py_int value ;;
            Ok (VInt z, len value + offset)
        | FloatHandler =>
            x <- of_option (float_of_str value) ;;
            Ok (VFloat x, len value + offset)
        | ListHandler =>
            items <- decode_items fuel value 0 [] ;;
            Ok (VList items, len value + offset)
        | TupleHandler =>
            items <- decode_items fuel value 0 [] ;;
            Ok (VTuple items, len value + offset)
        | SetHandler =>
            items <- decode_items fuel value 0 [] ;;
            members <- py_set items ;;
            Ok (VSet members, len value + offset)
        | DictionaryHandler =>
            pairs <- decode_pairs fuel value 0 [] ;;
            entries <- py_dict pairs ;;
            Ok (VDict entries, len value + offset)
        end) ;;
     Ok v).
Proof.
  intros Hp. exists (length f). split.
  - pose proof (packed_length h text f Hp). lia.
  - rewrite (loads_packed h text f Hp). cbn [decode_fuel].
    now rewrite (unpack_packed h text f Hp).
Qed.

(** X12.  A list or a tuple fragment whose value is a run of exact
    fragments is decoded to the list or the tuple of their values, in
    their order, whether an encoder wrote the fragments or not. *)
Theorem sequence_decodes_members (fs : list str) (vs : list pyvalue) :
  Forall2 exact_fragment fs vs ->
  let value := concat fs in
  (forall f, _pack ListHandler (len value) value = Ok f ->
             loads f = Ok (VList vs)) /\
  (forall f, _pack TupleHandler (len value) value = Ok f ->
             loads f = Ok (VTuple vs)).
Proof.
  intros HF value. subst value. split; intros f Hp;
    destruct (loads_packed_unfold _ _ _ Hp) as (fuel & Hfuel & ->);
    cbn [bind]; rewrite (decode_items_all fs vs fuel HF Hfuel); reflexivity.
Qed.

(** X13.  A set fragment whose value is a run of exact fragments is
    decoded to the set that [set] builds from their values: a value
    equal to an earlier one is dropped, and an unhashable value makes
    the decoding raise TypeError. *)
Theorem set_decodes_members (fs : list str) (vs : list pyvalue) (f : str) :
  Forall2 exact_fragment fs vs ->
  let value := concat fs in
  _pack SetHandler (len value) value = Ok f ->
  loads f = (members <- py_set vs ;; Ok (VSet members)) /\
  (forallb hashable vs = false -> loads f = Raise TypeError).
Proof.
  intros HF value Hp. subst value.
  assert (Hl : loads f = (members <- py_set vs ;; Ok (VSet members))).
  { destruct (loads_packed_unfold _ _ _ Hp) as (fuel & Hfuel & ->).
    cbn [bind]. rewrite (decode_items_all fs vs fuel HF Hfuel).
    cbn [bind]. now destruct (py_set vs). }
  split; [exact Hl|].
  intros Hh. rewrite Hl. unfold py_set.
  assert (Hraise : forall acc, py_set_from acc vs = Raise TypeError).
  { clear - Hh. induction vs as [|x vs IH]; intros acc; cbn in *;
      [discriminate|].
    destruct (hashable x); [now apply IH | reflexivity]. }
  now rewrite Hraise.
Qed.

Lemma loads_dictionary_pairs (fs : list str) (ps : list pyvalue) (f : str) :
  Forall2 exact_pair fs ps ->
  _pack DictionaryHandler (len (concat fs)) (concat fs) = Ok f ->
  loads f = (entries <- py_dict ps ;; Ok (VDict entries)).
Proof.
  intros HF Hp.
  destruct (loads_packed_unfold _ _ _ Hp) as (fuel & Hfuel & ->).
  cbn [bind]. rewrite (decode_pairs_all fs ps fuel HF Hfuel).
  cbn [bind]. now destruct (py_dict ps).
Qed.

(** X14.  A dictionary fragment whose value is a run of fragments that
    the pair handler decodes exactly is decoded to the dictionary that
    [dict] builds from the decoded tuples, in their order. *)
Theorem dictionary_decodes_pairs (fs : list str) (ps : list pyvalue)
  (f : str) :
  Forall2 exact_pair fs ps ->
  let value := concat fs in
  _pack DictionaryHandler (len value) value = Ok f ->
  loads f = (entries <- py_dict ps ;; Ok (VDict entries)).
Proof. intros HF value Hp. now apply (loads_dictionary_pairs fs). Qed.

(** X16.  A key that comes twice in a dictionary fragment is decoded
    once: when the keys of two pairs are equal under [==], the
    decoded dictionary holds the key of the first pair with the value
    of the second. *)
Theorem dictionary_later_value_wins (f1 f2 f : str)
  (k1 v1 k2 v2 : pyvalue) :
  exact_pair f1 (VTuple [k1; v1]) ->
  exact_pair f2 (VTuple [k2; v2]) ->
  hashable k1 = true ->
  hashable k2 = true ->
  py_eq k1 k2 = true ->
  _pack DictionaryHandler (len (f1 ++ f2)) (f1 ++ f2) = Ok f ->
  loads f = Ok (VDict [(k1, v2)]).
Proof.
  intros H1 H2 Hh1 Hh2 Heq Hp.
  pose proof (loads_dictionary_pairs [f1; f2]
                [VTuple [k1; v1]; VTuple [k2; v2]] f) as H.
  cbn [concat] in H. rewrite app_nil_r in H.
  rewrite H; [|constructor; [assumption|]; constructor; [assumption|];
                constructor|assumption].
  unfold py_dict. cbn [py_dict_from]. rewrite Hh1. cbn [dict_set].
  rewrite Hh2. cbn [dict_set py_dict_from]. rewrite Heq. reflexivity.
Qed.

(** X17.  A dictionary fragment whose first pair is a tuple of other
    than two members raises ValueError, whatever pairs follow. *)
Theorem dictionary_pair_arity (f : str) (l : list pyvalue) (fs : list str)
  (ps : list pyvalue) (whole : str) :
  exact_pair f (VTuple l) ->
  length l <> 2%nat ->
  Forall2 exact_pair fs ps ->
  let value := concat (f :: fs) in
  _pack DictionaryHandler (len value) value = Ok whole ->
  loads whole = Raise ValueError.
Proof.
  intros Hf Hl HF value Hp. unfold value in Hp.
  rewrite (loads_dictionary_pairs (f :: fs) (VTuple l :: ps) whole);
    [|now constructor|assumption].
  unfold py_dict. cbn [py_dict_from].
  destruct l as [|k [|v [|w l]]]; try reflexivity.
  now contradiction Hl.
Qed.

(** X15.  A collection fails as a whole with the error of its first
    member that fails: after any run of exact fragments, a well-formed
    fragment on which decoding raises makes [loads] of the list, of
    the tuple and of the set raise the same exception, whatever
    follows. *)
Theorem member_error_propagates (fs : list str) (vs : list pyvalue)
  (f rest : str) (e : exn) :
  Forall2 exact_fragment fs vs ->
  well_formed f ->
  decode_fragment f = Raise e ->
  let value := concat fs ++ f ++ rest in
  forall h whole,
    h = ListHandler \/ h = TupleHandler \/ h = SetHandler ->
    _pack h (len value) value = Ok whole ->
    loads whole = Raise e.
Proof.
  intros HF Hwf He value h whole Hh Hp. subst value.
  destruct (loads_packed_unfold _ _ _ Hp) as (fuel & Hfuel & ->).
  cbn [bind].
  pose proof (decode_items_failing fs vs f rest e fuel HF Hwf He Hfuel) as Hd.
  destruct Hh as [->|[->| ->]]; rewrite Hd; reflexivity.
Qed.

(** X19.  The loop of a collection does not check that its last
    member ends where the value ends: after any run of exact
    fragments, a last text member without a delimiter, whose consumed
    length passes the end of the value by one, is accepted and decoded
    to the empty text. *)
Theorem member_overrun_accepted (fs : list str) (vs : list pyvalue)
  (length_str : str) (n : Z) :
  Forall2 exact_fragment fs vs ->
  ~ In delimiter length_str ->
  py_int length_str = Ok n ->
  let value := concat fs ++ tag StringHandler :: length_str in
  forall f,
    _pack ListHandler (len value) value = Ok f ->
    loads f = Ok (VList (vs ++ [VStr []])).
Proof.
  intros HF Hd Hint value f Hp.
  set (last := tag StringHandler :: length_str).
  assert (Hu : _unpack last = Ok ([], n, len length_str + 2)).
  { unfold last, _unpack. cbn [get_tag bind].
    rewrite py_slice_from_tail, (split_head_whole _ _ Hd), Hint. cbn [bind].
    rewrite py_slice_beyond by (rewrite len_cons; lia).
    now replace (len length_str + 1 + 1) with (len length_str + 2) by lia. }
  destruct (loads_packed_unfold _ _ _ Hp) as (fuel & Hpl & ->).
  cbn [bind]. clear Hp.
  pose proof (decode_items_stream fs vs HF [] last [] fuel) as H.
  cbn [app] in H. change (len (@nil char)) with 0 in H.
  change (concat fs ++ last) with value in H.
  rewrite H by lia. cbn [Z.add]. clear H.
  pose proof (len_nonneg (concat fs)) as Hfs.
  pose proof (len_nonneg length_str) as Hls.
  assert (Hv : len value = len (concat fs) + (1 + len length_str)).
  { unfold value, last. now rewrite len_app, len_cons. }
  assert (Hvn : Z.of_nat (length value) = len value) by reflexivity.
  destruct fuel as [|[|fuel]]; try lia.
  rewrite decode_items_unfold.
  assert (Hlt : (len (concat fs) <? len value) = true)
    by (apply Z.ltb_lt; lia).
  assert (Hsl : py_slice_from value (len (concat fs)) = last)
    by apply py_slice_from_app.
  assert (Hh : get_by_raw_data last = Ok StringHandler) by reflexivity.
  rewrite Hlt, Hsl, Hh. cbn [bind].
  cbn [decode_fuel]. rewrite Hu. cbn [bind].
  rewrite decode_items_unfold.
  assert (Hge : (len (concat fs) + (len (@nil char) + (len length_str + 2))
                 <? len value) = false)
    by (apply Z.ltb_ge; rewrite len_nil; lia).
  now rewrite Hge.
Qed.

(** X18.  A scalar fragment whose payload the conversion of its type
    rejects raises ValueError: an integer or a boolean payload that
    [int] rejects, a float payload that [float] rejects, a datetime
    payload that [fromisoformat] rejects. *)
Theorem payload_conversion_errors (payload : str) :
  (forall e f, py_int payload = Raise e ->
               (_pack IntegerHandler (len payload) payload = Ok f ->
                loads f = Raise ValueError) /\
               (_pack BooleanHandler (len payload) payload = Ok f ->
                loads f = Raise ValueError)) /\
  (forall f, float_of_str payload = None ->
             _pack FloatHandler (len payload) payload = Ok f ->
             loads f = Raise ValueError) /\
  (forall f, fromisoformat payload = None ->
             _pack DatetimeHandler (len payload) payload = Ok f ->
             loads f = Raise ValueError).
Proof.
  repeat split; intros;
    match goal with
    | Hp : _pack _ _ _ = Ok _ |- _ =>
        destruct (loads_packed_unfold _ _ _ Hp) as (fuel & _ & ->)
    end; cbn [bind].
  - rewrite H. cbn [bind]. now rewrite (py_int_error _ _ H).
  - rewrite H. cbn [bind]. now rewrite (py_int_error _ _ H).
  - now rewrite H.
  - now rewrite H.
Qed.

(** X20.  The decoder accepts every length text that [int] accepts (a
    sign, spaces, zeros in front, underscores), but the encoder writes
    plain decimal digits: encoding the decoding of a well-formed text
    fragment gives the fragment back exactly when its length text is
    the plain decimal one. *)
Theorem text_fragment_reencodes_iff_canonical (length_str payload : str) :
  ~ In delimiter length_str ->
  py_int length_str = Ok (len payload) ->
  let f := tag StringHandler :: length_str ++ delimiter :: payload in
  loads f = Ok (VStr payload) /\
  (dumps (VStr payload) = Ok f <-> length_str = str_of_Z (len payload)).
Proof.
  intros Hd Hint f. split.
  - unfold f, loads, get_by_raw_data. cbn [get_tag bind].
    change (lookup_tag _tag_2_handler (tag StringHandler))
      with (Some StringHandler).
    cbv iota. unfold decode. cbn [decode_fuel].
    rewrite unpack_framed with (n := len payload);
      [|assumption|assumption|apply len_nonneg].
    cbn [bind]. pose proof (firstn_len_app payload []) as Hf.
    rewrite app_nil_r in Hf. now rewrite Hf.
  - unfold f. split.
    + intros H. apply dumps_Ok in H as [n H]. cbn [encode] in H.
      apply pack_text_Ok in H as [_ H]. apply pack_shape in H.
      injection H as H. apply app_inv_tail in H. now symmetry.
    + intros ->. unfold dumps. cbn [encode]. unfold pack_text, _pack, int_str.
      pose proof (py_int_str_of_Z (len payload)) as Hi.
      rewrite Hint in Hi.
      destruct (too_many_digits (decimal_digits (len payload)));
        [discriminate|reflexivity].
Qed.

End Streams.
(* ================================================================= *)
(** * The claims on concrete texts

    Under the reference interpretation of the built-ins. *)

#[local] Existing Instance reference_builtins.
#[local] Existing Instance reference_contracts.

Ltac no_delimiter :=
  cbn; intuition discriminate.







(** C3 as first stated fails: [loads "S99:short"] raises nothing and
    returns [short]. *)
Lemma loads_S99_short_returns :
  loads (lit "S99:short") = Ok (VStr (lit "short")).
Proof. reflexivity. Qed.

(** C3 (amended) at ["S99:short"]. *)
Lemma string_overrun_witness :
  ~ In delimiter (lit "99") /\
  py_int (lit "99") = Ok 99 /\
  len (lit "short") < 99 /\
  loads (lit "S99:short") = Ok (VStr (lit "short")) /\
  decode_fragment (lit "S99:short") = Ok (VStr (lit "short"), 9).
Proof.
  assert (Hd : ~ In delimiter (lit "99")).
  { cbn. intros [H|[H|[]]]; discriminate H. }
  split; [exact Hd|]. split; [reflexivity|]. split; [reflexivity|].
  exact (string_overrun_truncates (lit "99") (lit "short") 99
           Hd eq_refl eq_refl).
Defined.

(** C4 as first stated fails twice: ["S5"] has no delimiter and
    ["S-1:abc"] declares a negative length, and [loads] returns the
    empty text on both. *)
Lemma loads_accepts_loose_framing :
  (~ In delimiter (lit "S5") /\ loads (lit "S5") = Ok (VStr [])) /\
  (py_int (lit "-1") = Ok (-1) /\ loads (lit "S-1:abc") = Ok (VStr [])).
Proof.
  split; split.
  - cbn. intros [H|[H|[]]]; discriminate H.
  - exact loads_without_delimiter.
  - reflexivity.
  - exact loads_negative_length.
Qed.

(** C4 (amended) at ["Sx:hello"], whose length field is no integer:
    [loads] raises ValueError. *)
Lemma loads_malformed_witness :
  malformed (lit "Sx:hello") /\
  loads (lit "Sx:hello") = Raise ValueError /\
  (lit "Sx:hello" = [] -> loads (lit "Sx:hello") = Raise IndexError) /\
  (forall t r, lit "Sx:hello" = t :: r ->
               lookup_tag _tag_2_handler t = None ->
               loads (lit "Sx:hello") = Raise KeyError) /\
  (forall t r h, lit "Sx:hello" = t :: r ->
                 lookup_tag _tag_2_handler t = Some h ->
                 loads (lit "Sx:hello") = Raise ValueError).
Proof.
  assert (Hm : malformed (lit "Sx:hello")).
  { right. exists ValueError. reflexivity. }
  split; [exact Hm|].
  exact (loads_malformed_raises (lit "Sx:hello") Hm).
Defined.

(** The three exceptions of C4, each on a text of its case. *)
Example loads_malformed_examples :
  loads [] = Raise IndexError /\
  loads (lit "Z5:hello") = Raise KeyError /\
  loads (lit "Sx:hello") = Raise ValueError /\
  loads (lit "S:hello") = Raise ValueError.
Proof. repeat split. Qed.



(** C7 at the dictionary [{1: "a", None: []}], whose encoding is
    [d20:T8:I1:1S1:aT6:N0:L0:]. *)
Lemma dictionary_encoding_witness :
  let l := [(VInt 1, VStr (lit "a")); (VNone, VList [])] in
  let pairs := [(lit "I1:1", lit "S1:a"); (lit "N0:", lit "L0:")] in
  Forall2 (fun kv ff =>
             dumps (fst kv) = Ok (fst ff) /\ dumps (snd kv) = Ok (snd ff))
    l pairs /\
  Forall (fun ff : str * str => len (fst ff ++ snd ff) < length_limit) pairs /\
  len (lit "T8:I1:1S1:aT6:N0:L0:") < length_limit /\
  dumps (VDict l) = Ok (lit "d20:T8:I1:1S1:aT6:N0:L0:").
Proof.
  intros l pairs.
  assert (HF : Forall2 (fun kv ff =>
                          dumps (fst kv) = Ok (fst ff) /\
                          dumps (snd kv) = Ok (snd ff)) l pairs).
  { constructor; [split; reflexivity|].
    constructor; [split; reflexivity|]. constructor. }
  assert (Hs : Forall (fun ff : str * str =>
                         len (fst ff ++ snd ff) < length_limit) pairs).
  { constructor; [apply short_text; discriminate|].
    constructor; [apply short_text; discriminate|]. constructor. }
  assert (Hl : len (lit "T8:I1:1S1:aT6:N0:L0:") < length_limit)
    by (apply short_text; discriminate).
  split; [exact HF|]. split; [exact Hs|]. split; [exact Hl|].
  exact (proj2 (dictionary_encoding l) pairs HF Hs Hl).
Defined.

(** C8 at ["L8:I1:1I1:2"] followed by ["junk"]. *)
Lemma trailing_text_witness :
  well_formed (lit "L8:I1:1I1:2") /\
  loads (lit "L8:I1:1I1:2") = Ok (VList [VInt 1; VInt 2]) /\
  loads (lit "L8:I1:1I1:2" ++ lit "junk") = Ok (VList [VInt 1; VInt 2]).
Proof.
  assert (Hwf : well_formed (lit "L8:I1:1I1:2")).
  { exists (ch "L"), (lit "8"), (lit "I1:1I1:2"). repeat split.
    cbn. intros [H|[]]; discriminate H. }
  split; [exact Hwf|]. split; [reflexivity|].
  exact (trailing_text_ignored (lit "L8:I1:1I1:2") (lit "junk")
           (VList [VInt 1; VInt 2]) Hwf eq_refl).
Defined.

(** C9 at ["B1:7"]. *)
Lemma boolean_payload_witness :
  py_int (lit "7") = Ok 7 /\
  len (lit "7") < length_limit /\
  loads (lit "B1:7") = Ok (VBool true).
Proof.
  assert (Hl : len (lit "7") < length_limit)
    by (apply short_text; discriminate).
  split; [reflexivity|]. split; [exact Hl|].
  exact (proj2 (boolean_payload_any_integer (lit "7") 7 eq_refl) Hl).
Defined.

(** C10 at ["N3:abc"]. *)
Lemma none_ignores_payload_witness :
  0 <= 3 /\ 3 <= len (lit "abc") /\ 3 < length_limit /\
  loads (lit "N3:abc") = Ok VNone /\
  loads (lit "N +0_3 :abc") = Ok VNone.
Proof.
  assert (H0 : 0 <= 3) by discriminate.
  assert (H1 : 3 <= len (lit "abc")) by discriminate.
  assert (Hl : 3 < length_limit)
    by (apply (short_text (lit "abc")); discriminate).
  assert (Hd : ~ In delimiter (lit " +0_3 ")) by no_delimiter.
  split; [exact H0|]. split; [exact H1|]. split; [exact Hl|].
  destruct (none_ignores_payload 3 (lit "abc") H0 H1) as [Hplain Hany].
  split; [exact (Hplain Hl)|].
  exact (Hany (lit " +0_3 ") Hd eq_refl).
Defined.

(** ** Further concrete decodings *)

(** [True] is equal to [1], so the set keeps one member; a later equal
    key of a dictionary keeps the earlier key and takes the later
    value; the pair handler does not look at the tag of a pair. *)
Example set_merges_equal_members :
  loads (lit "s8:I1:1B1:1") = Ok (VSet [VInt 1]).
Proof. reflexivity. Qed.

Example dict_later_value_wins :
  loads (lit "d22:T8:I1:1I1:2T8:B1:1I1:3") = Ok (VDict [(VInt 1, VInt 3)]).
Proof. reflexivity. Qed.

Example dict_pair_of_any_tag :
  loads (lit "d11:L8:I1:1I1:2") = Ok (VDict [(VInt 1, VInt 2)]).
Proof. reflexivity. Qed.

Example dict_roundtrip_example :
  let d := VDict [(VInt 1, VStr (lit "a")); (VNone, VList [])] in
  dumps d = Ok (lit "d20:T8:I1:1S1:aT6:N0:L0:") /\
  loads (lit "d20:T8:I1:1S1:aT6:N0:L0:") = Ok d.
Proof. split; reflexivity. Qed.

(** A length field of more digits than the limit is refused, whatever
    number it denotes: 4299 zeros before the digit are read, 4300 are
    not. *)
Example long_length_field_refused :
  loads (tag StringHandler :: repeat (ch "0") 4299 ++ lit "5:hello") =
  Ok (VStr (lit "hello")) /\
  loads (tag StringHandler :: repeat (ch "0") 4300 ++ lit "5:hello") =
  Raise ValueError.
Proof. vm_compute. split; reflexivity. Qed.

(** A set that holds a datetime in a repeated hour and the datetime of
    the same instant with a fixed offset has two members; its decoding
    has one. *)
Example set_of_one_instant_shrinks :
  let same_instant :=
    mk_datetime 63739791000000000 false (Some (FixedOffset (-14400000000))) in
  let s := VSet [VDatetime repeated_hour; VDatetime same_instant] in
  supported s = true /\
  exists f, dumps s = Ok f /\ loads f = Ok (VSet [VDatetime same_instant]).
Proof.
  intros same_instant s. split; [reflexivity|].
  eexists. split; vm_compute; reflexivity.
Qed.

(* ================================================================= *)
(** * The further properties on concrete texts *)

Lemma registered_NoDup : NoDup registered.
Proof. repeat constructor; cbn; intuition discriminate. Qed.

Lemma exact_I1 : exact_fragment (lit "I1:1") (VInt 1).
Proof.
  split; [|reflexivity].
  exists (ch "I"), (lit "1"), (lit "1"). repeat split. no_delimiter.
Qed.

Lemma exact_B7 : exact_fragment (lit "B1:7") (VBool true).
Proof.
  split; [|reflexivity].
  exists (ch "B"), (lit "1"), (lit "7"). repeat split. no_delimiter.
Qed.

Lemma exact_L0 : exact_fragment (lit "L0:") (VList []).
Proof.
  split; [|reflexivity].
  exists (ch "L"), (lit "0"), []. repeat split. no_delimiter.
Qed.

Lemma exact_pair_1_2 :
  exact_pair (lit "T8:I1:1I1:2") (VTuple [VInt 1; VInt 2]).
Proof.
  split; [|reflexivity].
  exists (ch "T"), (lit "8"), (lit "I1:1I1:2"). repeat split. no_delimiter.
Qed.

Lemma exact_pair_true_3 :
  exact_pair (lit "T8:B1:1I1:3") (VTuple [VBool true; VInt 3]).
Proof.
  split; [|reflexivity].
  exists (ch "T"), (lit "8"), (lit "B1:1I1:3"). repeat split. no_delimiter.
Qed.

Lemma exact_pair_single : exact_pair (lit "T4:I1:1") (VTuple [VInt 1]).
Proof.
  split; [|reflexivity].
  exists (ch "T"), (lit "4"), (lit "I1:1"). repeat split. no_delimiter.
Qed.

Lemma well_formed_I1x : well_formed (lit "I1:x").
Proof.
  exists (ch "I"), (lit "1"), (lit "x"). repeat split. no_delimiter.
Qed.



(** X3 at two datetimes that differ in their fold only, and so have
    one text, each followed by the same text. *)
Lemma fragments_self_delimiting_witness :
  let v1 := VDatetime (mk_datetime 0 true None) in
  let v2 := VDatetime (mk_datetime 0 false None) in
  BuiltinContracts reference_builtins /\
  supported v1 = true /\ supported v2 = true /\
  dumps v1 = Ok (lit "D1:0") /\ dumps v2 = Ok (lit "D1:0") /\
  lit "D1:0" ++ lit "B1:1" = lit "D1:0" ++ lit "B1:1" /\
  lit "D1:0" = lit "D1:0" /\ lit "B1:1" = lit "B1:1" /\
  normal_time v1 = normal_time v2 /\
  same (normal_time v1) (normal_time v2).
Proof.
  intros v1 v2. split; [exact reference_contracts|].
  split; [reflexivity|]. split; [reflexivity|].
  split; [reflexivity|]. split; [reflexivity|]. split; [reflexivity|].
  exact (fragments_self_delimiting v1 v2 (lit "D1:0") (lit "D1:0")
           (lit "B1:1") (lit "B1:1") eq_refl eq_refl eq_refl eq_refl eq_refl).
Defined.

(** X4 at the list fragment ["L8:I1:1I1:2"] with twenty steps. *)
Lemma decoding_terminates_witness :
  (length (lit "L8:I1:1I1:2") < 20)%nat /\
  decode_fuel 20 ListHandler (lit "L8:I1:1I1:2") =
  decode ListHandler (lit "L8:I1:1I1:2") /\
  decode ListHandler (lit "L8:I1:1I1:2") <> Raise OutOfFuel /\
  loads (lit "L8:I1:1I1:2") <> Raise OutOfFuel.
Proof.
  assert (H : (length (lit "L8:I1:1I1:2") < 20)%nat)
    by (apply Nat.ltb_lt; reflexivity).
  split; [exact H|].
  exact (decoding_terminates ListHandler (lit "L8:I1:1I1:2") 20 H).
Defined.

(** X6 at ["S5"], where the consumed length is one past the end. *)
Lemma consumed_length_bounds_witness :
  decode StringHandler (lit "S5") = Ok (VStr [], 3) /\
  3 <= 3 <= len (lit "S5") + 1 /\
  (In delimiter (tl (lit "S5")) -> 3 <= len (lit "S5")) /\
  (~ In delimiter (tl (lit "S5")) -> 3 = len (lit "S5") + 1).
Proof.
  split; [reflexivity|].
  exact (consumed_length_bounds StringHandler (lit "S5") (VStr []) 3 eq_refl).
Defined.

(** X7 at the length text ["5"]. *)
Lemma missing_delimiter_witness :
  ~ In delimiter (lit "5") /\
  py_int (lit "5") = Ok 5 /\
  loads (lit "S5") = Ok (VStr []) /\
  loads (lit "L5") = Ok (VList []) /\
  loads (lit "N5") = Ok VNone.
Proof.
  assert (Hd : ~ In delimiter (lit "5")) by no_delimiter.
  split; [exact Hd|]. split; [reflexivity|].
  exact (proj2 (missing_delimiter_reads_empty (lit "5") 5 Hd eq_refl)).
Defined.

(** X8 at ["S-9:abcdefghij"]. *)
Lemma negative_length_witness :
  ~ In delimiter (lit "-9") /\
  py_int (lit "-9") = Ok (-9) /\
  -9 < 0 /\
  loads (lit "S-9:abcdefghij") = Ok (VStr (lit "abcde")).
Proof.
  assert (Hd : ~ In delimiter (lit "-9")) by no_delimiter.
  split; [exact Hd|]. split; [reflexivity|]. split; [reflexivity|].
  exact (negative_length_slices (lit "-9") (lit "abcdefghij") (-9)
           Hd eq_refl eq_refl).
Defined.

(** X10 at the ten handlers of the module. *)
Lemma registration_witness :
  NoDup registered /\
  register_all registered = Ok (map entry_of registered) /\
  forall h, In h registered ->
            lookup_tag (map entry_of registered) (tag h) = Some h.
Proof.
  split; [exact registered_NoDup|].
  exact (proj1 (registration_keeps_tags_unique registered) registered_NoDup).
Defined.

(** X12 at the fragments ["I1:1"] and ["B1:7"]. *)
Lemma sequence_decodes_members_witness :
  Forall2 exact_fragment [lit "I1:1"; lit "B1:7"] [VInt 1; VBool true] /\
  _pack ListHandler 8 (lit "I1:1B1:7") = Ok (lit "L8:I1:1B1:7") /\
  _pack TupleHandler 8 (lit "I1:1B1:7") = Ok (lit "T8:I1:1B1:7") /\
  loads (lit "L8:I1:1B1:7") = Ok (VList [VInt 1; VBool true]) /\
  loads (lit "T8:I1:1B1:7") = Ok (VTuple [VInt 1; VBool true]).
Proof.
  assert (HF : Forall2 exact_fragment [lit "I1:1"; lit "B1:7"]
                 [VInt 1; VBool true]).
  { constructor; [exact exact_I1|]. constructor; [exact exact_B7|].
    constructor. }
  split; [exact HF|]. split; [reflexivity|]. split; [reflexivity|].
  split.
  - exact (proj1 (sequence_decodes_members _ _ HF) _ eq_refl).
  - exact (proj2 (sequence_decodes_members _ _ HF) _ eq_refl).
Defined.

(** X13 at a set fragment that holds a list. *)
Lemma set_decodes_members_witness :
  Forall2 exact_fragment [lit "L0:"] [VList []] /\
  _pack SetHandler 3 (lit "L0:") = Ok (lit "s3:L0:") /\
  forallb hashable [VList []] = false /\
  loads (lit "s3:L0:") = Raise TypeError.
Proof.
  assert (HF : Forall2 exact_fragment [lit "L0:"] [VList []]).
  { constructor; [exact exact_L0 | constructor]. }
  split; [exact HF|]. split; [reflexivity|]. split; [reflexivity|].
  exact (proj2 (set_decodes_members _ _ (lit "s3:L0:") HF eq_refl) eq_refl).
Defined.

(** X14 at a dictionary fragment of one pair. *)
Lemma dictionary_decodes_pairs_witness :
  Forall2 exact_pair [lit "T8:I1:1I1:2"] [VTuple [VInt 1; VInt 2]] /\
  _pack DictionaryHandler 11 (lit "T8:I1:1I1:2") =
  Ok (lit "d11:T8:I1:1I1:2") /\
  loads (lit "d11:T8:I1:1I1:2") = Ok (VDict [(VInt 1, VInt 2)]).
Proof.
  assert (HF : Forall2 exact_pair [lit "T8:I1:1I1:2"]
                 [VTuple [VInt 1; VInt 2]]).
  { constructor; [exact exact_pair_1_2 | constructor]. }
  split; [exact HF|]. split; [reflexivity|].
  exact (dictionary_decodes_pairs _ _ (lit "d11:T8:I1:1I1:2") HF eq_refl).
Defined.

(** X15 at a list whose second member has a payload that is no
    integer. *)
Lemma member_error_propagates_witness :
  Forall2 exact_fragment [lit "I1:1"] [VInt 1] /\
  well_formed (lit "I1:x") /\
  decode_fragment (lit "I1:x") = Raise ValueError /\
  _pack SetHandler 12 (lit "I1:1I1:xI1:2") = Ok (lit "s12:I1:1I1:xI1:2") /\
  loads (lit "s12:I1:1I1:xI1:2") = Raise ValueError.
Proof.
  assert (HF : Forall2 exact_fragment [lit "I1:1"] [VInt 1]).
  { constructor; [exact exact_I1 | constructor]. }
  split; [exact HF|]. split; [exact well_formed_I1x|].
  split; [reflexivity|]. split; [reflexivity|].
  exact (member_error_propagates _ _ (lit "I1:x") (lit "I1:2") ValueError
           HF well_formed_I1x eq_refl SetHandler (lit "s12:I1:1I1:xI1:2")
           (or_intror (or_intror eq_refl)) eq_refl).
Defined.

(** X16 at the keys [1] and [True]. *)
Lemma dictionary_later_value_wins_witness :
  exact_pair (lit "T8:I1:1I1:2") (VTuple [VInt 1; VInt 2]) /\
  exact_pair (lit "T8:B1:1I1:3") (VTuple [VBool true; VInt 3]) /\
  py_eq (VInt 1) (VBool true) = true /\
  _pack DictionaryHandler 22 (lit "T8:I1:1I1:2T8:B1:1I1:3") =
  Ok (lit "d22:T8:I1:1I1:2T8:B1:1I1:3") /\
  loads (lit "d22:T8:I1:1I1:2T8:B1:1I1:3") = Ok (VDict [(VInt 1, VInt 3)]).
Proof.
  split; [exact exact_pair_1_2|]. split; [exact exact_pair_true_3|].
  split; [reflexivity|]. split; [reflexivity|].
  exact (dictionary_later_value_wins _ _ (lit "d22:T8:I1:1I1:2T8:B1:1I1:3")
           _ _ _ _
           exact_pair_1_2 exact_pair_true_3 eq_refl eq_refl eq_refl eq_refl).
Defined.

(** X17 at a pair of one member. *)
Lemma dictionary_pair_arity_witness :
  exact_pair (lit "T4:I1:1") (VTuple [VInt 1]) /\
  length [VInt 1] <> 2%nat /\
  _pack DictionaryHandler 7 (lit "T4:I1:1") = Ok (lit "d7:T4:I1:1") /\
  loads (lit "d7:T4:I1:1") = Raise ValueError.
Proof.
  assert (Hl : length [VInt 1] <> 2%nat) by discriminate.
  split; [exact exact_pair_single|]. split; [exact Hl|].
  split; [reflexivity|].
  exact (dictionary_pair_arity _ _ [] [] (lit "d7:T4:I1:1")
           exact_pair_single Hl (Forall2_nil _) eq_refl).
Defined.

(** X18 at the payload ["x"]. *)
Lemma payload_conversion_witness :
  py_int (lit "x") = Raise ValueError /\
  _pack IntegerHandler 1 (lit "x") = Ok (lit "I1:x") /\
  loads (lit "I1:x") = Raise ValueError.
Proof.
  split; [reflexivity|]. split; [reflexivity|].
  exact (proj1 (proj1 (payload_conversion_errors (lit "x")) ValueError
                  (lit "I1:x") eq_refl) eq_refl).
Defined.

(** X19 at a list whose last member is ["S5"]. *)
Lemma member_overrun_witness :
  Forall2 exact_fragment [lit "I1:1"] [VInt 1] /\
  ~ In delimiter (lit "5") /\
  py_int (lit "5") = Ok 5 /\
  _pack ListHandler 6 (lit "I1:1S5") = Ok (lit "L6:I1:1S5") /\
  loads (lit "L6:I1:1S5") = Ok (VList [VInt 1; VStr []]).
Proof.
  assert (HF : Forall2 exact_fragment [lit "I1:1"] [VInt 1]).
  { constructor; [exact exact_I1 | constructor]. }
  assert (Hd : ~ In delimiter (lit "5")) by no_delimiter.
  split; [exact HF|]. split; [exact Hd|]. split; [reflexivity|].
  split; [reflexivity|].
  exact (member_overrun_accepted _ _ (lit "5") 5 HF Hd eq_refl
           (lit "L6:I1:1S5") eq_refl).
Defined.

(** X20 at ["S+5:hello"], whose length text has a sign. *)
Lemma text_fragment_reencodes_witness :
  ~ In delimiter (lit "+5") /\
  py_int (lit "+5") = Ok (len (lit "hello")) /\
  loads (lit "S+5:hello") = Ok (VStr (lit "hello")) /\
  (dumps (VStr (lit "hello")) = Ok (lit "S+5:hello") <->
   lit "+5" = str_of_Z (len (lit "hello"))).
Proof.
  assert (Hd : ~ In delimiter (lit "+5")) by no_delimiter.
  split; [exact Hd|]. split; [reflexivity|].
  exact (text_fragment_reencodes_iff_canonical (lit "+5") (lit "hello")
           Hd eq_refl).
Defined.


